(** * PhotoManager core: a shallow embedding of [photomanager_core.py]

    The batch pipeline of the repository (timestamp resolution, per-day
    naming counters, collision-free output paths, colour-mode normalisation,
    per-file failure isolation and progress reporting) is embedded as Rocq
    functions.  Calls into Pillow, pathlib, datetime and [str.format] are
    library code, not code of the repository: they appear as the fields of an
    explicit environment, so that every theorem holds for all behaviours of
    these libraries, including every way in which they can raise. *)

From Stdlib Require Import Ascii String DecimalString DecimalNat.
From stdpp Require Import gmap strings list fin_maps fin_sets.

(** ** Python strings (ASCII model) *)

Module PyStr.

(** [str.upper] and [str.lower], on the ASCII letters.  They are Python's
    on strings of ASCII characters; a byte outside [a-z] and [A-Z] is left
    as it is, which is not what Python does to a letter outside ASCII, so
    a fact that compares the two mappings is stated for ASCII strings
    only. *)
Definition upper_char (c : ascii) : ascii :=
  let n := nat_of_ascii c in
  if (97 <=? n)%nat && (n <=? 122)%nat then ascii_of_nat (n - 32) else c.

Definition lower_char (c : ascii) : ascii :=
  let n := nat_of_ascii c in
  if (65 <=? n)%nat && (n <=? 90)%nat then ascii_of_nat (n + 32) else c.

Fixpoint upper (s : string) : string :=
  match s with
  | EmptyString => EmptyString
  | String c r => String (upper_char c) (upper r)
  end.

Fixpoint lower (s : string) : string :=
  match s with
  | EmptyString => EmptyString
  | String c r => String (lower_char c) (lower r)
  end.

(** [s.replace(old, new, count)] for one-character [old] and [new]. *)
Fixpoint replace_char (old new : ascii) (count : nat) (s : string) : string :=
  match s with
  | EmptyString => EmptyString
  | String c r =>
      match count with
      | 0 => s
      | S count' =>
          if Ascii.eqb c old then String new (replace_char old new count' r)
          else String c (replace_char old new count r)
      end
  end.

(** Python truthiness of a string: [not s] holds of the empty string. *)
Definition is_empty (s : string) : bool :=
  match s with EmptyString => true | String _ _ => false end.

(** Zero-padded decimal formatting of a non-negative integer, as the format
    specification [0{w}d] does it: the decimal digits, with zeros put in
    front until the width is reached; longer numbers are left whole. *)
Fixpoint pad_zeros (k : nat) (d : Decimal.uint) : Decimal.uint :=
  match k with
  | 0 => d
  | S k' => Decimal.D0 (pad_zeros k' d)
  end.

Definition zfill (w n : nat) : string :=
  let d := Nat.to_uint n in
  NilEmpty.string_of_uint (pad_zeros (w - Decimal.nb_digits d) d).

(** Reading a run of decimal digits back. *)
Definition parse_nat (s : string) : option nat :=
  option_map Nat.of_uint (NilEmpty.uint_of_string s).

End PyStr.

(** ** Paths and the destination directory *)

(** A path is the string that names it; [folder / name], for the relative
    names the core builds, puts the separator between the two.  The state
    of the file system, as far as [Path.exists] can see it, is the finite
    set of the paths that exist. *)
Abbreviation Path := string (only parsing).

Definition joinpath (folder : Path) (name : string) : Path :=
  folder +:+ "/" +:+ name.

Section UniquePath.

Variable fs : gset string.
Variables (folder : Path) (base_name ext : string).

(** The candidate tried by iteration [i] of the loop of [unique_path]:
    [folder / f"{base_name}_{i:03d}{ext}"]. *)
Definition numbered (i : nat) : Path :=
  joinpath folder (base_name +:+ "_" +:+ PyStr.zfill 3 i +:+ ext).

(** The [while True] loop of [unique_path], from counter [i], run for at
    most [fuel] iterations; [None] when the fuel is used up. *)
Fixpoint unique_path_loop (fuel i : nat) : option Path :=
  match fuel with
  | 0 => None
  | S fuel' =>
      let candidate := numbered i in
      if bool_decide (candidate ∈ fs) then unique_path_loop fuel' (S i)
      else Some candidate
  end.

Definition unique_path_fuel (fuel : nat) : option Path :=
  let candidate := joinpath folder (base_name +:+ ext) in
  if bool_decide (candidate ∈ fs) then unique_path_loop fuel 1
  else Some candidate.

(** The allocator with the fuel that always suffices: one iteration more
    than there are existing paths. *)
Definition unique_path : option Path := unique_path_fuel (S (size fs)).

(** The order of the candidates, as the docstring gives it: first
    [<base_name><ext>], then [_001], [_002], and so on. *)
Definition nth_candidate (k : nat) : Path :=
  match k with
  | 0 => joinpath folder (base_name +:+ ext)
  | S _ => numbered k
  end.

End UniquePath.

(** ** Exceptions *)

(** An instance of a subclass of [Exception]; [str(e)] is its message. *)
Record exn := Exception { exn_msg : string }.

(** The result of a call that may raise. *)
Inductive res (A : Type) : Type :=
  | Ok (a : A)
  | Err (e : exn).
Arguments Ok {A} a.
Arguments Err {A} e.

#[global] Instance res_ret : MRet res := λ A a, Ok a.

#[global] Instance res_bind : MBind res := λ A B k m,
  match m with
  | Ok a => k a
  | Err e => Err e
  end.

(** [try: body / except Exception: handler]. *)
Definition try_except {A} (body : res A) (handler : exn → res A) : res A :=
  match body with
  | Ok a => Ok a
  | Err e => handler e
  end.

(** ** Data model *)

Record datetime := {
  year : nat; month : nat; day : nat;
  hour : nat; minute : nat; second : nat
}.

(** [dt.strftime('%Y%m%d')]: the day-key, YYYYMMDD, the year on four
    digits and the month and the day on two. *)
Definition strftime_Ymd (dt : datetime) : string :=
  PyStr.zfill 4 (year dt) +:+ PyStr.zfill 2 (month dt) +:+ PyStr.zfill 2 (day dt).

(** The values of the year, month and day fields of a [datetime] object. *)
Definition valid_date (dt : datetime) : Prop :=
  (1 ≤ year dt < 10 ^ 4 ∧ 1 ≤ month dt ≤ 12 ∧ 1 ≤ day dt ≤ 31)%nat.

(** The value stored under an EXIF tag. *)
Inductive exif_value :=
  | VStr (s : string)
  | VInt (z : Z)
  | VBytes (b : string).

(** An opened image, as far as the pipeline looks at it: its mode, what
    [getexif()] gives (the call may raise, and so may the reading of each
    entry when [items()] is iterated), and the [exif] and [icc_profile]
    entries of [info].  Iterating [getexif().items()] goes over the main
    directory of the EXIF block only; the entries of the Exif sub-directory
    (pointer tag 0x8769), where cameras write DateTimeOriginal, are the
    field [exif_ifd]: Pillow gives them through [get_ifd(0x8769)], which
    the core never calls. *)
Record Image := {
  mode : string;
  getexif : res (list (res (Z * exif_value)));
  exif_ifd : list (Z * exif_value);
  info_exif : option string;
  info_icc : option string
}.

Definition with_mode (m : string) (img : Image) : Image :=
  {| mode := m; getexif := getexif img; exif_ifd := exif_ifd img;
     info_exif := info_exif img; info_icc := info_icc img |}.

Record PhotoConfig := {
  source_dir : Path;
  dest_dir : Path;
  max_width : Z;
  max_height : Z;
  quality : Z;
  strip_metadata : bool;
  recursive : bool;
  rename_pattern : string;
  output_format : string
}.

(** The substitution context handed to the template. *)
Record name_ctx := {
  ctx_folder : string;
  ctx_date : string;
  ctx_counter : nat;
  ctx_orig : string
}.

(** The keyword arguments of [im.save]. *)
Record save_kwargs := {
  kw_format : string;
  kw_quality : Z;
  kw_optimize : bool;
  kw_subsampling : option string;
  kw_exif : option string;
  kw_icc_profile : option string
}.

(** ** The libraries the core calls *)

(** Everything the core asks of Pillow, pathlib, datetime, [str.format] and
    the operating system.  A call that can raise returns a [res]. *)
Record Lib := {
  (* PIL.ExifTags.TAGS *)
  TAGS : Z → option string;
  (* datetime *)
  fromisoformat : string → res datetime;
  fromtimestamp : Z → res datetime;
  now : Path → datetime;        (* the clock, read while this file is processed *)
  (* pathlib *)
  st_mtime : Path → res Z;
  path_stem : Path → string;
  path_name : Path → string;
  path_suffix : Path → string;
  is_file : Path → bool;
  rglob : gset string → Path → res (list Path);
  iterdir : gset string → Path → res (list Path);
  mkdir : gset string → Path → res (gset string);
  (* str.format, applied to the context as keyword arguments *)
  str_format : string → name_ctx → res string;
  (* Pillow *)
  image_open : Path → res Image;
  exif_transpose : Image → res Image;
  convert_error : Image → string → option exn;
  thumbnail : Image → Z * Z → res Image;
  save : gset string → Image → Path → save_kwargs → res unit * gset string;
  close : Image → res unit
}.

(** The outcome of running [process_images]: it returns, it raises, or (in
    the model of the unbounded loop of [unique_path]) it does not return. *)
Inductive outcome (A : Type) : Type :=
  | Returned (a : A)
  | Raised (e : exn)
  | Diverged.
Arguments Returned {A} a.
Arguments Raised {A} e.
Arguments Diverged {A}.

(** What a run leaves behind and hands back: the returned count, the file
    system, the lines printed, the calls received by the progress sink, in
    order, and the counters dictionary ([None] when it was never created). *)
Record Report := {
  returned : nat;
  final_fs : gset string;
  printed : list string;
  progress_calls : list (nat * nat);
  final_counters : option (gmap string nat)
}.

(** The variables of the loop of [process_images], with the file system,
    the output stream and the calls made to the progress sink so far. *)
Record Run := {
  run_fs : gset string;
  run_stdout : list string;
  run_progress : list (nat * nat);
  run_counters : gmap string nat;
  run_processed : nat
}.

(** How the inner [try] block of the loop is left: the image bound to [im]
    at that point (the one [finally] closes), the counters, the file system,
    and whether an exception is in flight. *)
Record Inner := {
  in_im : Image;
  in_counters : gmap string nat;
  in_fs : gset string;
  in_result : res unit
}.

Definition SUPPORTED_EXT : list string :=
  [".jpg"; ".jpeg"; ".png"; ".bmp"; ".tiff"; ".tif"; ".webp"].

(** Truthiness of [im.info.get(key)]: present and not empty. *)
Definition truthy (o : option string) : option string :=
  match o with
  | Some s => if PyStr.is_empty s then None else Some s
  | None => None
  end.

(** The extension of the output files (lines 163 to 167 of the core),
    with [up] for [str.upper] and [lo] for [str.lower]. *)
Definition output_ext_of (up lo : string → string) (output_format : string) : string :=
  let fmt := up output_format in
  if String.eqb fmt "JPEG" then ".jpg" else "." +:+ lo fmt.

(** The extension under the case mappings of the string model. *)
Definition output_ext (output_format : string) : string :=
  output_ext_of PyStr.upper PyStr.lower output_format.

Section Core.

Context (lib : Lib).

(** [ExifTags.TAGS.get(k, k) == 'DateTimeOriginal']: an unknown key is
    compared itself, an integer against a string. *)
Definition is_DateTimeOriginal (k : Z) : bool :=
  match TAGS lib k with
  | Some name => String.eqb name "DateTimeOriginal"
  | None => false
  end.

Definition isinstance_str (v : exif_value) : option string :=
  match v with
  | VStr s => Some s
  | _ => None
  end.

(** The [for k, v in exif.items()] loop: [Ok (Some d)] when it returns [d],
    [Ok None] when it runs to its end, [Err e] when reading an entry or
    parsing the date raises. *)
Fixpoint scan_exif_items (items : list (res (Z * exif_value))) : res (option datetime) :=
  match items with
  | [] => Ok None
  | Err e :: _ => Err e
  | Ok (k, v) :: rest =>
      match (if is_DateTimeOriginal k then isinstance_str v else None) with
      | Some s =>
          let v2 := PyStr.replace_char ":" "-" 2 s in
          d ← fromisoformat lib v2; Ok (Some d)
      | None => scan_exif_items rest
      end
  end.

Definition exif_datetime (img : Image) (src : Path) : res datetime :=
  found ← try_except
    (exif ← getexif img;
     if negb (bool_decide (exif = [])) then scan_exif_items exif else Ok None)
    (λ _, Ok None);
  match found with
  | Some d => Ok d
  | None =>
      try_except
        (ts ← st_mtime lib src; fromtimestamp lib ts)
        (λ _, Ok (now lib src))
  end.

(** [img.convert(m)]: raises, or gives the image in mode [m]. *)
Definition convert (img : Image) (m : string) : res Image :=
  match convert_error lib img m with
  | Some e => Err e
  | None => Ok (with_mode m img)
  end.

Definition ensure_rgb (img : Image) : res Image :=
  if bool_decide (mode img ∈ ["RGBA"; "LA"; "P"; "CMYK"])
  then convert img "RGB"
  else Ok img.

Definition _iter_images (fs : gset string) (folder : Path) (recursive : bool)
    : res (list Path) :=
  let exts := SUPPORTED_EXT in
  entries ← (if recursive then rglob lib fs folder else iterdir lib fs folder);
  Ok (filter (λ p, is_file lib p = true ∧ PyStr.lower (path_suffix lib p) ∈ exts) entries).

Definition gather_images (fs : gset string) (config : PhotoConfig) : res (list Path) :=
  _iter_images fs (source_dir config) (recursive config).

(** The name builder.  The counters dictionary is mutated in place before
    anything can raise, so the new counters are returned beside the result. *)
Definition _build_base_name (config : PhotoConfig) (src : Path) (parent_name : string)
    (counters : gmap string nat) (dt : datetime) : res string * gmap string nat :=
  let day_key := strftime_Ymd dt in
  let counters :=
    match counters !! day_key with
    | Some _ => counters
    | None => <[day_key := 0]> counters
    end in
  let counters := <[day_key := counters !!! day_key + 1]> counters in
  let ctx := {| ctx_folder := parent_name; ctx_date := day_key;
                ctx_counter := counters !!! day_key; ctx_orig := path_stem lib src |} in
  (try_except
     (base ← str_format lib (rename_pattern config) ctx;
      if PyStr.is_empty base then Err (Exception "empty name") else Ok base)
     (λ _, Ok (parent_name +:+ "_" +:+ day_key +:+ "_"
               +:+ PyStr.zfill 3 (counters !!! day_key))),
   counters).

(** The keyword arguments built for [im.save]: the subsampling for JPEG
    only, and the EXIF and ICC blocks of the image unless metadata is
    stripped or they are missing or empty. *)
Definition make_save_kwargs (config : PhotoConfig) (fmt : string) (im : Image)
    : save_kwargs :=
  {| kw_format := fmt; kw_quality := quality config; kw_optimize := true;
     kw_subsampling := if String.eqb fmt "JPEG" then Some "4:2:0" else None;
     kw_exif := if strip_metadata config then None else truthy (info_exif im);
     kw_icc_profile := if strip_metadata config then None else truthy (info_icc im) |}.

(** The statements of the inner [try] block, for the image [im0] that
    [Image.open] returned.  [None]: [unique_path] does not return. *)
Definition pipeline (config : PhotoConfig) (parent_name fmt ext : string) (src : Path)
    (im0 : Image) (counters : gmap string nat) (fs : gset string) : option Inner :=
  match exif_transpose lib im0 with
  | Err e => Some {| in_im := im0; in_counters := counters; in_fs := fs; in_result := Err e |}
  | Ok im1 =>
  match exif_datetime im1 src with
  | Err e => Some {| in_im := im1; in_counters := counters; in_fs := fs; in_result := Err e |}
  | Ok dt =>
  let '(named, counters1) := _build_base_name config src parent_name counters dt in
  match named with
  | Err e => Some {| in_im := im1; in_counters := counters1; in_fs := fs; in_result := Err e |}
  | Ok base_name =>
  match ensure_rgb im1 with
  | Err e => Some {| in_im := im1; in_counters := counters1; in_fs := fs; in_result := Err e |}
  | Ok im2 =>
  match thumbnail lib im2 (max_width config, max_height config) with
  | Err e => Some {| in_im := im2; in_counters := counters1; in_fs := fs; in_result := Err e |}
  | Ok im3 =>
  match unique_path fs (dest_dir config) base_name ext with
  | None => None
  | Some out_path =>
      let '(saved, fs1) := save lib fs im3 out_path (make_save_kwargs config fmt im3) in
      Some {| in_im := im3; in_counters := counters1; in_fs := fs1; in_result := saved |}
  end end end end end end.

(** The outer [try] block of one iteration: what the file did to the
    counters and the file system, and the exception that reaches the
    [except Exception] clause, if any. *)
Definition attempt (config : PhotoConfig) (parent_name fmt ext : string) (src : Path)
    (counters : gmap string nat) (fs : gset string)
    : option (gmap string nat * gset string * res unit) :=
  match image_open lib src with
  | Err e => Some (counters, fs, Err e)
  | Ok im0 =>
      match pipeline config parent_name fmt ext src im0 counters fs with
      | None => None
      | Some i =>
          (* finally: im.close() *)
          match close lib (in_im i) with
          | Err e => Some (in_counters i, in_fs i, Err e)
          | Ok _ => Some (in_counters i, in_fs i, in_result i)
          end
      end
  end.

(** One iteration of the [for src in images_list] loop. *)
Definition process_file (config : PhotoConfig) (parent_name fmt ext : string)
    (progress_cb : bool) (total : nat) (src : Path) (st : Run) : option Run :=
  match attempt config parent_name fmt ext src (run_counters st) (run_fs st) with
  | None => None
  | Some (counters, fs, r) =>
      let stdout :=
        match r with
        | Ok _ => run_stdout st
        | Err e => run_stdout st ++ ["[ERREUR] " +:+ src +:+ ": " +:+ exn_msg e]
        end in
      let processed := run_processed st + 1 in
      Some {| run_fs := fs; run_stdout := stdout;
              run_progress := if progress_cb
                              then run_progress st ++ [(processed, total)]
                              else run_progress st;
              run_counters := counters; run_processed := processed |}
  end.

Fixpoint process_loop (config : PhotoConfig) (parent_name fmt ext : string)
    (progress_cb : bool) (total : nat) (images_list : list Path) (st : Run) : option Run :=
  match images_list with
  | [] => Some st
  | src :: rest =>
      match process_file config parent_name fmt ext progress_cb total src st with
      | None => None
      | Some st' => process_loop config parent_name fmt ext progress_cb total rest st'
      end
  end.

(** [process_images(config, images, progress_cb)], run on the file system
    [fs].  [progress_cb] tells whether a progress sink was given; the sink
    is the caller's, and is stood for by the list of the calls it receives. *)
Definition process_images (config : PhotoConfig) (images : option (list Path))
    (progress_cb : bool) (fs : gset string) : outcome Report :=
  let src_dir := source_dir config in
  let dst_dir := dest_dir config in
  match mkdir lib fs dst_dir with
  | Err e => Raised e
  | Ok fs1 =>
  match (match images with
         | None => gather_images fs1 config
         | Some l => Ok l
         end) with
  | Err e => Raised e
  | Ok images_list =>
      let total := length images_list in
      if (total =? 0)%nat then
        Returned {| returned := 0; final_fs := fs1; printed := [];
                    progress_calls := []; final_counters := None |}
      else
        let parent_name := path_name lib src_dir in
        let fmt := PyStr.upper (output_format config) in
        let ext := output_ext (output_format config) in
        match process_loop config parent_name fmt ext progress_cb total images_list
                {| run_fs := fs1; run_stdout := []; run_progress := [];
                   run_counters := ∅; run_processed := 0 |} with
        | None => Diverged
        | Some st =>
            Returned {| returned := run_processed st; final_fs := run_fs st;
                        printed := run_stdout st; progress_calls := run_progress st;
                        final_counters := Some (run_counters st) |}
        end
  end end.

End Core.

(** ** A small instance of the libraries

    Used to run the model on concrete inputs.  The template renderer knows
    the placeholders the core documents ([folder], [date], [counter] with
    or without the [03d] specification, [orig]) and raises on any other
    field; the date parser reads [YYYY-MM-DD HH:MM:SS]. *)

Module Demo.

Fixpoint rpartition (sep : ascii) (s : string) : option (string * string) :=
  match s with
  | EmptyString => None
  | String x r =>
      match rpartition sep r with
      | Some (h, t) => Some (String x h, t)
      | None => if Ascii.eqb x sep then Some (EmptyString, r) else None
      end
  end.

Definition name (p : string) : string :=
  match rpartition "/" p with
  | Some (_, t) => t
  | None => p
  end.

Definition suffix (p : string) : string :=
  match rpartition "." (name p) with
  | Some (h, t) => if PyStr.is_empty h || PyStr.is_empty t then "" else "." +:+ t
  | None => ""
  end.

Definition stem (p : string) : string :=
  match rpartition "." (name p) with
  | Some (h, t) => if PyStr.is_empty h || PyStr.is_empty t then name p else h
  | None => name p
  end.

Definition field_value (ctx : name_ctx) (field : string) : res string :=
  if String.eqb field "folder" then Ok (ctx_folder ctx)
  else if String.eqb field "date" then Ok (ctx_date ctx)
  else if String.eqb field "counter" then Ok (PyStr.zfill 1 (ctx_counter ctx))
  else if String.eqb field "counter:03d" then Ok (PyStr.zfill 3 (ctx_counter ctx))
  else if String.eqb field "orig" then Ok (ctx_orig ctx)
  else Err (Exception field).

(** [field] is [Some f] while the characters of a replacement field are
    being read, [f] holding those read so far. *)
Fixpoint render (ctx : name_ctx) (s : string) (field : option string) : res string :=
  match s with
  | EmptyString =>
      match field with
      | None => Ok ""
      | Some _ => Err (Exception "expected '}' before end of string")
      end
  | String c r =>
      match field with
      | None =>
          if Ascii.eqb c "{" then render ctx r (Some "")
          else if Ascii.eqb c "}" then
            Err (Exception "Single '}' encountered in format string")
          else rest ← render ctx r None; Ok (String c rest)
      | Some f =>
          if Ascii.eqb c "}" then
            v ← field_value ctx f; rest ← render ctx r None; Ok (v +:+ rest)
          else render ctx r (Some (f +:+ String c ""))
      end
  end.

Definition two_digits (s : string) (at_ : nat) : option nat :=
  PyStr.parse_nat (String.substring at_ 2 s).

Definition parse_iso (s : string) : res datetime :=
  match PyStr.parse_nat (String.substring 0 4 s), two_digits s 5, two_digits s 8,
        two_digits s 11, two_digits s 14, two_digits s 17 with
  | Some y, Some m, Some d, Some hh, Some mm, Some ss =>
      if String.eqb (String.substring 4 1 s) "-" && String.eqb (String.substring 7 1 s) "-"
         && String.eqb (String.substring 10 1 s) " " && (String.length s =? 19)%nat
         && String.eqb (String.substring 13 1 s) ":" && String.eqb (String.substring 16 1 s) ":"
      then Ok {| year := y; month := m; day := d; hour := hh; minute := mm; second := ss |}
      else Err (Exception ("Invalid isoformat string: " +:+ s))
  | _, _, _, _, _, _ => Err (Exception ("Invalid isoformat string: " +:+ s))
  end.

Definition shot (when : string) (m : string) : Image :=
  {| mode := m; getexif := Ok [Ok (271%Z, VStr "Camera"); Ok (36867%Z, VStr when)];
     exif_ifd := []; info_exif := Some "Exif"; info_icc := None |}.

(** A photo as cameras write it: the main directory holds the maker and
    the pointer to the Exif sub-directory, and DateTimeOriginal is in the
    sub-directory. *)
Definition photo (when : string) (m : string) : Image :=
  {| mode := m; getexif := Ok [Ok (271%Z, VStr "Camera"); Ok (34665%Z, VInt 90)];
     exif_ifd := [(36867%Z, VStr when)]; info_exif := Some "Exif"; info_icc := None |}.

Definition plain (m : string) : Image :=
  {| mode := m; getexif := Ok []; exif_ifd := []; info_exif := None; info_icc := None |}.

Definition open_file (p : string) : res Image :=
  if String.eqb p "in/a.jpg" then Ok (shot "2023:01:15 10:30:00" "RGB")
  else if String.eqb p "in/b.jpg" then Ok (shot "2023:01:15 18:00:00" "RGB")
  else if String.eqb p "in/c.png" then Ok (plain "RGBA")
  else if String.eqb p "in/d.jpg" then Ok (shot "2023:01:16 09:00:00" "RGB")
  else if String.eqb p "in/e.tif" then Ok (shot "2023:01:15 19:00:00" "PA")
  else Err (Exception ("cannot identify image file '" +:+ p +:+ "'")).

Definition lib : Lib :=
  {| TAGS := λ k, if (k =? 36867)%Z then Some "DateTimeOriginal"
                  else if (k =? 271)%Z then Some "Make" else None;
     fromisoformat := parse_iso;
     fromtimestamp := λ ts,
       if (0 <=? ts)%Z && (ts <? 31 * 86400)%Z
       then Ok {| year := 2024; month := 1; day := 1 + Z.to_nat (ts / 86400);
                  hour := 0; minute := 0; second := 0 |}
       else Err (Exception "timestamp out of range");
     now := λ _, {| year := 2025; month := 6; day := 15;
                    hour := 12; minute := 0; second := 0 |};
     st_mtime := λ p, if String.eqb p "in/c.png" then Ok (4 * 86400)%Z
                      else Err (Exception "No such file or directory");
     path_stem := stem;
     path_name := name;
     path_suffix := suffix;
     is_file := λ p, negb (String.eqb (suffix p) "");
     rglob := λ _ folder,
       if String.eqb folder "in"
       then Ok ["in/a.jpg"; "in/notes.txt"; "in/broken.jpg"; "in/sub/c.PNG"]
       else Err (Exception "No such file or directory");
     iterdir := λ _ folder,
       if String.eqb folder "in"
       then Ok ["in/a.jpg"; "in/notes.txt"; "in/broken.jpg"; "in/sub"]
       else Err (Exception "No such file or directory");
     mkdir := λ fs p,
       if String.eqb p "" then Err (Exception "Permission denied") else Ok ({[p]} ∪ fs);
     str_format := λ pattern ctx, render ctx pattern None;
     image_open := open_file;
     exif_transpose := λ img, Ok img;
     convert_error := λ _ _, None;
     thumbnail := λ img _, Ok img;
     save := λ fs img p kw,
       if String.eqb (mode img) "PA"
       then (Err (Exception ("cannot write mode PA as " +:+ kw_format kw)), fs)
       else (Ok (), {[p]} ∪ fs);
     close := λ _, Ok () |}.

Definition config : PhotoConfig :=
  {| source_dir := "in"; dest_dir := "out"; max_width := 800; max_height := 600;
     quality := 70; strip_metadata := false; recursive := true;
     rename_pattern := "{folder}_{date}_{counter:03d}"; output_format := "JPEG" |}.

(** The same configuration with a template that names an undefined
    placeholder. *)
Definition bad_config : PhotoConfig :=
  {| source_dir := "in"; dest_dir := "out"; max_width := 800; max_height := 600;
     quality := 70; strip_metadata := false; recursive := true;
     rename_pattern := "{album}-{counter}"; output_format := "JPEG" |}.

(** A destination directory that cannot be created. *)
Definition unwritable_config : PhotoConfig :=
  {| source_dir := "in"; dest_dir := ""; max_width := 800; max_height := 600;
     quality := 70; strip_metadata := false; recursive := true;
     rename_pattern := "{folder}_{date}_{counter:03d}"; output_format := "JPEG" |}.

(** The letter U+00DF (sharp s), in UTF-8. *)
Definition eszett : string :=
  String (ascii_of_nat 195) (String (ascii_of_nat 159) EmptyString).

(** [str.upper] with the one mapping outside ASCII that the examples
    need: the sharp s becomes "SS", as Unicode's full case mapping has it. *)
Fixpoint upper_eszett (s : string) : string :=
  match s with
  | EmptyString => EmptyString
  | String c r =>
      if (nat_of_ascii c =? 195)%nat then
        match r with
        | String c2 r2 =>
            if (nat_of_ascii c2 =? 159)%nat then "SS" +:+ upper_eszett r2
            else String c (upper_eszett r)
        | EmptyString => String c EmptyString
        end
      else String (PyStr.upper_char c) (upper_eszett r)
  end.

Definition at_day (d h : nat) : datetime :=
  {| year := 2023; month := 1; day := d; hour := h; minute := 0; second := 0 |}.

Definition files : list (string * datetime) :=
  [("in/a.jpg", at_day 15 10); ("in/d.jpg", at_day 16 9); ("in/b.jpg", at_day 15 18)].

End Demo.

(** ** The specification's wording, to compare the code with *)

(** The extension mapping as the specification words it: the format named
    "JPEG" gives [.jpg], any other name gives a dot and its lowercase form. *)
Definition ext_as_specified (output_format : string) : string :=
  if String.eqb output_format "JPEG" then ".jpg"
  else "." +:+ PyStr.lower output_format.

(** The classes of modes the specification names, over Pillow's table of
    modes: the modes with an alpha band (plain or premultiplied), the
    palette modes, and CMYK. *)
Definition has_alpha (m : string) : bool :=
  bool_decide (m ∈ ["LA"; "La"; "PA"; "RGBA"; "RGBa"]).

Definition is_palette (m : string) : bool :=
  bool_decide (m ∈ ["P"; "PA"]).

Definition is_cmyk (m : string) : bool := String.eqb m "CMYK".

Definition converted_as_specified (m : string) : bool :=
  has_alpha m || is_palette m || is_cmyk m.

(** What lines 49 to 54 look for: the first entry of the main directory
    that carries the DateTimeOriginal tag with a string value, every entry
    before it having been read without error, and its value parsing as the
    date and time [d]. *)
Definition top_level_capture_time (lib : Lib) (img : Image) (d : datetime) : Prop :=
  ∃ (pre rest : list (res (Z * exif_value))) (k : Z) (s : string),
    getexif img = Ok (pre ++ Ok (k, VStr s) :: rest) ∧
    Forall (λ r, ∃ k' v', r = Ok (k', v') ∧
                 (is_DateTimeOriginal lib k' = false ∨ isinstance_str v' = None)) pre ∧
    is_DateTimeOriginal lib k = true ∧
    fromisoformat lib (PyStr.replace_char ":" "-" 2 s) = Ok d.

(** Step 1 of the timestamp resolver as the specification words it: the
    embedded DateTimeOriginal field is present, in the main directory or
    in the Exif sub-directory, and its value parses as the date and time
    [d]. *)
Definition embedded_capture_time (lib : Lib) (img : Image) (d : datetime) : Prop :=
  ∃ (k : Z) (s : string),
    is_DateTimeOriginal lib k = true ∧
    ((∃ items, getexif img = Ok items ∧ Ok (k, VStr s) ∈ items) ∨
     (k, VStr s) ∈ exif_ifd img) ∧
    fromisoformat lib (PyStr.replace_char ":" "-" 2 s) = Ok d.

(** Step 2: the last-modified time of the file can be read and converted. *)
Definition modified_time (lib : Lib) (src : Path) (d : datetime) : Prop :=
  ∃ ts : Z, st_mtime lib src = Ok ts ∧ fromtimestamp lib ts = Ok d.

(** Two dates fall on the same calendar day. *)
Definition same_day (d1 d2 : datetime) : Prop :=
  year d1 = year d2 ∧ month d1 = month d2 ∧ day d1 = day d2.

#[global] Instance same_day_dec (d1 d2 : datetime) : Decision (same_day d1 d2) :=
  ltac:(unfold same_day; apply _).

(** The base name of a file of date [dt] when the counter is [n]: the
    template rendered with that counter, or the fallback with that counter
    when rendering raises or gives the empty string. *)
Definition name_with_counter (lib : Lib) (config : PhotoConfig) (parent_name : string)
    (src : Path) (dt : datetime) (n : nat) : string :=
  let fallback :=
    parent_name +:+ "_" +:+ strftime_Ymd dt +:+ "_" +:+ PyStr.zfill 3 n in
  match str_format lib (rename_pattern config)
          {| ctx_folder := parent_name; ctx_date := strftime_Ymd dt;
             ctx_counter := n; ctx_orig := path_stem lib src |} with
  | Ok base => if PyStr.is_empty base then fallback else base
  | Err _ => fallback
  end.

(** The names the name builder returns for a sequence of files, in order,
    on one counters dictionary. *)
Fixpoint build_all (lib : Lib) (config : PhotoConfig) (parent_name : string)
    (files : list (Path * datetime)) (counters : gmap string nat) : list (res string) :=
  match files with
  | [] => []
  | (src, dt) :: rest =>
      let '(named, counters1) := _build_base_name lib config src parent_name counters dt in
      named :: build_all lib config parent_name rest counters1
  end.

(** The string holds ASCII characters only. *)
Fixpoint is_ascii (s : string) : bool :=
  match s with
  | EmptyString => true
  | String c r => (nat_of_ascii c <? 128)%nat && is_ascii r
  end.

(** The name builder called on a sequence of files, in order, on one
    counters dictionary: for each file, its date and the value its call
    left in the counters under the day-key. *)
Fixpoint name_all (lib : Lib) (config : PhotoConfig) (parent_name : string)
    (files : list (Path * datetime)) (counters : gmap string nat)
    : list (datetime * nat) :=
  match files with
  | [] => []
  | (src, dt) :: rest =>
      let counters1 := (_build_base_name lib config src parent_name counters dt).2 in
      (dt, counters1 !!! strftime_Ymd dt)
        :: name_all lib config parent_name rest counters1
  end.

(** Every step of the per-file pipeline goes through without raising:
    open, orientation, timestamp, naming, colour mode, resize, path
    allocation, save, and the closing of the image. *)
Definition stages_succeed (lib : Lib) (config : PhotoConfig) (parent_name fmt ext : string)
    (src : Path) (counters : gmap string nat) (fs : gset string) : Prop :=
  ∃ (im0 im1 im2 im3 : Image) (dt : datetime) (base_name : string)
    (counters1 : gmap string nat) (out_path : string),
    image_open lib src = Ok im0 ∧
    exif_transpose lib im0 = Ok im1 ∧
    exif_datetime lib im1 src = Ok dt ∧
    _build_base_name lib config src parent_name counters dt = (Ok base_name, counters1) ∧
    ensure_rgb lib im1 = Ok im2 ∧
    thumbnail lib im2 (max_width config, max_height config) = Ok im3 ∧
    unique_path fs (dest_dir config) base_name ext = Some out_path ∧
    (save lib fs im3 out_path (make_save_kwargs config fmt im3)).1 = Ok () ∧
    close lib im3 = Ok ().

(** The date with which a file reaches the name builder, when opening,
    orientation correction and timestamp resolution all go through. *)
Definition reaches_naming (lib : Lib) (src : Path) : option datetime :=
  match image_open lib src with
  | Ok im0 =>
      match exif_transpose lib im0 with
      | Ok im1 =>
          match exif_datetime lib im1 src with
          | Ok dt => Some dt
          | Err _ => None
          end
      | Err _ => None
      end
  | Err _ => None
  end.

(** The files of a batch that reach the name builder, in processing order. *)
Definition named_files (lib : Lib) (images_list : list Path) : list (Path * datetime) :=
  omap (λ src, (λ dt, (src, dt)) <$> reaches_naming lib src) images_list.

(** The counters after the name builder has been called on each of the
    files, in order. *)
Definition counters_after (lib : Lib) (config : PhotoConfig) (parent_name : string)
    (files : list (Path * datetime)) (counters : gmap string nat) : gmap string nat :=
  foldl (λ c f, (_build_base_name lib config f.1 parent_name c f.2).2) counters files.

(** The line printed for a file whose processing raised [e]. *)
Definition error_line (src : Path) (e : exn) : string :=
  "[ERREUR] " +:+ src +:+ ": " +:+ exn_msg e.

(** ** Further definitions used to state properties of the core *)

(** The libraries with another [Image.save]. *)
Definition with_save
    (save' : gset string → Image → Path → save_kwargs → res unit * gset string)
    (lib : Lib) : Lib :=
  {| TAGS := TAGS lib; fromisoformat := fromisoformat lib;
     fromtimestamp := fromtimestamp lib; now := now lib;
     st_mtime := st_mtime lib; path_stem := path_stem lib;
     path_name := path_name lib; path_suffix := path_suffix lib;
     is_file := is_file lib; rglob := rglob lib; iterdir := iterdir lib;
     mkdir := mkdir lib; str_format := str_format lib;
     image_open := image_open lib; exif_transpose := exif_transpose lib;
     convert_error := convert_error lib; thumbnail := thumbnail lib;
     save := save'; close := close lib |}.

(** What [process_images] hands to [im.save] for the metadata blocks:
    nothing when metadata is stripped, and otherwise exactly the non-empty
    blocks the image itself carries. *)
Definition metadata_carried (config : PhotoConfig) (im : Image) (kw : save_kwargs) : Prop :=
  (strip_metadata config = true → kw_exif kw = None ∧ kw_icc_profile kw = None) ∧
  (∀ b, kw_exif kw = Some b → info_exif im = Some b ∧ b ≠ "") ∧
  (∀ b, kw_icc_profile kw = Some b → info_icc im = Some b ∧ b ≠ "") ∧
  (strip_metadata config = false →
     (∀ b, info_exif im = Some b → b ≠ "" → kw_exif kw = Some b) ∧
     (∀ b, info_icc im = Some b → b ≠ "" → kw_icc_profile kw = Some b)).

(** The encoder settings [process_images] hands to [im.save]. *)
Definition encoder_settings (config : PhotoConfig) (kw : save_kwargs) : Prop :=
  kw_format kw = PyStr.upper (output_format config) ∧
  kw_quality kw = quality config ∧
  kw_optimize kw = true ∧
  kw_subsampling kw
  = (if String.eqb (PyStr.upper (output_format config)) "JPEG"
     then Some "4:2:0" else None).

(** Allocating a path and creating it, [n] times over, for the same base
    name and extension. *)
Fixpoint allocate_all (folder : Path) (base_name ext : string) (n : nat)
    (fs : gset string) : list Path :=
  match n with
  | 0 => []
  | S n' =>
      match unique_path fs folder base_name ext with
      | Some p => p :: allocate_all folder base_name ext n' ({[p]} ∪ fs)
      | None => []
      end
  end.

(** The character [c] occurs in [s]. *)
Fixpoint has_char (c : ascii) (s : string) : bool :=
  match s with
  | EmptyString => false
  | String x r => Ascii.eqb x c || has_char c r
  end.

(** A file is one discovery keeps: a regular file whose suffix, in lower
    case, is a supported extension. *)
Definition supported_image (lib : Lib) (p : Path) : Prop :=
  is_file lib p = true ∧ PyStr.lower (path_suffix lib p) ∈ SUPPORTED_EXT.

(** The listing discovery filters: all entries below the folder, or its
    direct children. *)
Definition listing (lib : Lib) (fs : gset string) (config : PhotoConfig) : res (list Path) :=
  if recursive config then rglob lib fs (source_dir config)
  else iterdir lib fs (source_dir config).

(** An [Image.save] that refuses to write over an existing path. *)
Definition strict_save (lib : Lib) (fs : gset string) (im : Image) (p : Path)
    (kw : save_kwargs) : res unit * gset string :=
  if bool_decide (p ∈ fs) then (Err (Exception "file exists"), fs)
  else save lib fs im p kw.

(** An [Image.save] that refuses metadata blocks. *)
Definition bare_save (lib : Lib) (fs : gset string) (im : Image) (p : Path)
    (kw : save_kwargs) : res unit * gset string :=
  match kw_exif kw, kw_icc_profile kw with
  | None, None => save lib fs im p kw
  | _, _ => (Err (Exception "metadata refused"), fs)
  end.

(** An [Image.save] that refuses chroma subsampling for any format other
    than JPEG, and unoptimised encoding. *)
Definition picky_save (lib : Lib) (fs : gset string) (im : Image) (p : Path)
    (kw : save_kwargs) : res unit * gset string :=
  if kw_optimize kw
     && (String.eqb (kw_format kw) "JPEG"
         || bool_decide (kw_subsampling kw = None))
  then save lib fs im p kw
  else (Err (Exception "bad encoder settings"), fs).

(** The sample configuration with metadata stripped, as PNG. *)
Definition stripping_config : PhotoConfig :=
  {| source_dir := "in"; dest_dir := "out"; max_width := 800; max_height := 600;
     quality := 70; strip_metadata := true; recursive := false;
     rename_pattern := "{orig}"; output_format := "png" |}.

(** ** The shell: the form of [photomanager_gui.py] and its run button *)

Module PyText.

(** [str.isspace], on ASCII. *)
Definition is_space (c : ascii) : bool :=
  let n := nat_of_ascii c in
  ((9 <=? n)%nat && (n <=? 13)%nat) || ((28 <=? n)%nat && (n <=? 32)%nat).

Fixpoint lstrip (s : string) : string :=
  match s with
  | EmptyString => EmptyString
  | String c r => if is_space c then lstrip r else s
  end.

Fixpoint rstrip (s : string) : string :=
  match s with
  | EmptyString => EmptyString
  | String c r =>
      let r' := rstrip r in
      if is_space c && PyStr.is_empty r' then EmptyString else String c r'
  end.

(** [s.strip()]. *)
Definition strip (s : string) : string := lstrip (rstrip s).

(** [a or b] on strings. *)
Definition or_else (a b : string) : string :=
  if PyStr.is_empty a then b else a.

(** [str(n)] for a non-negative integer. *)
Definition str_of_nat (n : nat) : string := NilEmpty.string_of_uint (Nat.to_uint n).

Fixpoint insert_sorted (x : string) (l : list string) : list string :=
  match l with
  | [] => [x]
  | y :: r => if String.leb x y then x :: l else y :: insert_sorted x r
  end.

(** [sorted(l)] on strings. *)
Definition sorted (l : list string) : list string := foldr insert_sorted [] l.

Definition newline : string := String (ascii_of_nat 10) EmptyString.

End PyText.

(** The variables of the form.  Reading an [IntVar] raises when the field
    holds no number. *)
Record Form := {
  input_dir_var : string;
  output_dir_var : string;
  max_w_var : res Z;
  max_h_var : res Z;
  quality_var : res Z;
  strip_metadata_var : bool;
  recursive_var : bool;
  rename_pattern_var : string;
  output_format_var : string
}.

(** What the shell asks of pathlib beyond the core: [Path.resolve] and
    [Path.is_dir]; [Path.exists] is membership in the file system.
    [mkdir_leftover] is the file system a failing
    [mkdir(parents=True, exist_ok=True)] leaves: it may have created some
    of the parents before it raised. *)
Record Shell := {
  resolve : Path → res Path;
  is_dir : Path → bool;
  mkdir_leftover : gset string → Path → gset string
}.

(** What the user sees: the message boxes, and the state given to the
    progress bar and its label.  [CallbackRaises] is a callback scheduled
    with [after] that raises when the main loop runs it: nothing is shown. *)
Inductive ui_event :=
  | ShowError (title message : string)
  | ShowInfo (title message : string)
  | ProgressBar (value maximum : nat) (label : string)
  | CallbackRaises.


Definition DEFAULT_PATTERN : string := "{folder}_{date}_{counter:03d}".

Definition invalid_input_dir : string := "Dossier d'entrée invalide.".
Definition invalid_numbers : string :=
  "Paramètres invalides (valeurs numériques requises).".
Definition invalid_ranges : string :=
  "Paramètres invalides (w/h > 0, qualité 1..100).".

Section Gui.

Context (lib : Lib) (sh : Shell).

(** [_build_config]: the configuration or [None], the message boxes
    shown, and the file system it leaves. *)
Definition _build_config (form : Form) (fs : gset string)
    : option PhotoConfig * list ui_event * gset string :=
  match resolve sh (input_dir_var form) with
  | Err e => (None, [ShowError "Erreur" (exn_msg e)], fs)
  | Ok in_dir =>
  if negb (bool_decide (in_dir ∈ fs)) || negb (is_dir sh in_dir) then
    (None, [ShowError "Erreur" invalid_input_dir], fs)
  else
  match (if negb (PyStr.is_empty (PyText.strip (output_dir_var form)))
         then resolve sh (output_dir_var form)
         else resolve sh (joinpath in_dir "output")) with
  | Err e => (None, [ShowError "Erreur" (exn_msg e)], fs)
  | Ok out_dir =>
  match mkdir lib fs out_dir with
  | Err e => (None, [ShowError "Erreur" (exn_msg e)], mkdir_leftover sh fs out_dir)
  | Ok fs1 =>
  match (w ← max_w_var form; h ← max_h_var form; q ← quality_var form; Ok (w, h, q)) with
  | Err _ => (None, [ShowError "Erreur" invalid_numbers], fs1)
  | Ok (w, h, q) =>
  if (w <=? 0)%Z || (h <=? 0)%Z || negb ((1 <=? q)%Z && (q <=? 100)%Z) then
    (None, [ShowError "Erreur" invalid_ranges], fs1)
  else
    (Some {| source_dir := in_dir; dest_dir := out_dir;
             max_width := w; max_height := h; quality := q;
             strip_metadata := strip_metadata_var form;
             recursive := recursive_var form;
             rename_pattern :=
               PyText.or_else (PyText.strip (rename_pattern_var form)) DEFAULT_PATTERN;
             output_format :=
               PyText.or_else (PyText.strip (output_format_var form)) "JPEG" |},
     [], fs1)
  end end end end.

Definition progress_label (processed total : nat) : string :=
  PyText.str_of_nat processed +:+ " / " +:+ PyText.str_of_nat total.

(** [_update_progress(processed, total)]. *)
Definition _update_progress (processed total : nat) : ui_event :=
  ProgressBar processed total (progress_label processed total).

Definition no_image_message : string :=
  "Aucune image trouvée dans le dossier (et sous-dossiers si activé)."
  +:+ PyText.newline
  +:+ "Extensions supportées: " +:+ String.concat ", " (PyText.sorted SUPPORTED_EXT).

Definition done_message (processed : nat) (dest : Path) : string :=
  "Traitement terminé !" +:+ PyText.newline
  +:+ "Images traitées : " +:+ PyText.str_of_nat processed +:+ PyText.newline
  +:+ "Sortie : " +:+ dest.

(** [on_run]: the events the user sees, in the order in which they are
    set or scheduled, and the file system left.  The worker is followed
    to its end; an exception of discovery is not caught.  When the core
    raises, the worker schedules [lambda: messagebox.showerror("Erreur",
    str(e))]; the [except] clause unbinds [e] when it ends, so the lambda
    raises NameError when the main loop runs it and no box appears. *)
Definition on_run (form : Form) (fs : gset string)
    : outcome (list ui_event * gset string) :=
  let '(built, events, fs1) := _build_config form fs in
  match built with
  | None => Returned (events, fs1)
  | Some cfg =>
      match gather_images lib fs1 cfg with
      | Err e => Raised e
      | Ok imgs =>
          match imgs with
          | [] => Returned (events ++ [ShowInfo "Info" no_image_message], fs1)
          | _ :: _ =>
              let progress_max := length imgs in
              let events :=
                events ++ [ProgressBar 0 progress_max (progress_label 0 progress_max)] in
              match process_images lib cfg (Some imgs) true fs1 with
              | Returned r =>
                  Returned
                    (events
                     ++ ((λ c, _update_progress c.1 c.2) <$> progress_calls r)
                     ++ [ShowInfo "Terminé" (done_message (returned r) (dest_dir cfg))],
                     final_fs r)
              | Raised e =>
                  Returned (events ++ [CallbackRaises],
                            mkdir_leftover sh fs1 (dest_dir cfg))
              | Diverged => Diverged
              end
          end
      end
  end.

End Gui.

(** A sample shell and two forms. *)
Definition demo_shell : Shell :=
  {| resolve := λ p, if String.eqb p "" then Ok "cwd" else Ok p;
     is_dir := λ p, String.eqb (Demo.suffix p) "";
     mkdir_leftover := λ fs _, fs |}.

Definition demo_form : Form :=
  {| input_dir_var := "in"; output_dir_var := "  "; max_w_var := Ok 800%Z;
     max_h_var := Ok 600%Z; quality_var := Ok 70%Z; strip_metadata_var := false;
     recursive_var := true; rename_pattern_var := " "; output_format_var := "JPEG" |}.






(** * Facts about the string model *)

Section StringFacts.

Lemma append_nil (b : string) : "" +:+ b = b.
Proof. reflexivity. Qed.

Lemma append_cons (x : ascii) (a b : string) :
  String x a +:+ b = String x (a +:+ b).
Proof. reflexivity. Qed.

Lemma length_append (a b : string) :
  String.length (a +:+ b) = String.length a + String.length b.
Proof.
  induction a as [|x a IH]; [done|].
  rewrite append_cons. simpl. by rewrite IH.
Qed.

Lemma append_assoc (a b c : string) : (a +:+ b) +:+ c = a +:+ (b +:+ c).
Proof.
  induction a as [|x a IH]; [done|].
  rewrite !append_cons. by rewrite IH.
Qed.

Lemma append_inj_length (a a' b b' : string) :
  String.length a = String.length a' →
  a +:+ b = a' +:+ b' → a = a' ∧ b = b'.
Proof.
  revert a'. induction a as [|c a IH]; intros [|c' a'] Hlen Heq;
    try discriminate.
  - done.
  - rewrite !append_cons in Heq.
    injection Heq as -> Heq. injection Hlen as Hlen.
    destruct (IH a' Hlen Heq) as [-> ->]. done.
Qed.

Lemma append_cancel_l (a b c : string) : a +:+ b = a +:+ c → b = c.
Proof. intros H. by apply (append_inj_length a a b c) in H as [_ ?]. Qed.

Lemma append_cancel_r (a b c : string) : a +:+ c = b +:+ c → a = b.
Proof.
  intros H. apply (append_inj_length a b c c) in H as [? _]; [done|].
  apply (f_equal String.length) in H. rewrite !length_append in H. lia.
Qed.

Lemma of_uint_pad_zeros k d :
  Nat.of_uint (PyStr.pad_zeros k d) = Nat.of_uint d.
Proof. induction k as [|k IH]; simpl; [done|]. exact IH. Qed.

Lemma parse_nat_zfill w n : PyStr.parse_nat (PyStr.zfill w n) = Some n.
Proof.
  unfold PyStr.parse_nat, PyStr.zfill. rewrite NilEmpty.usu. simpl.
  by rewrite of_uint_pad_zeros, Unsigned.of_to.
Qed.

Lemma zfill_inj w n m : PyStr.zfill w n = PyStr.zfill w m → n = m.
Proof.
  intros H. apply (f_equal PyStr.parse_nat) in H.
  rewrite !parse_nat_zfill in H. congruence.
Qed.

Lemma length_string_of_uint d :
  String.length (NilEmpty.string_of_uint d) = Decimal.nb_digits d.
Proof. induction d; simpl; congruence. Qed.

Lemma nb_digits_pad_zeros k d :
  Decimal.nb_digits (PyStr.pad_zeros k d) = k + Decimal.nb_digits d.
Proof. induction k as [|k IH]; simpl; [done|]. by rewrite IH. Qed.

(** A padded number is at least as wide as asked, and exactly as wide when
    its digits fit. *)
Lemma length_zfill (w n : nat) :
  String.length (PyStr.zfill w n) = Nat.max w (Decimal.nb_digits (Nat.to_uint n)).
Proof.
  unfold PyStr.zfill. rewrite length_string_of_uint, nb_digits_pad_zeros. lia.
Qed.

Lemma length_zfill_ge (w n : nat) : (w ≤ String.length (PyStr.zfill w n))%nat.
Proof. rewrite length_zfill. lia. Qed.

End StringFacts.

(** * The path allocator *)

Section UniquePathFacts.

Variables (folder : string) (base_name ext : string).

Lemma joinpath_inj (a b : string) : joinpath folder a = joinpath folder b → a = b.
Proof.
  unfold joinpath. intros H.
  apply append_cancel_l in H. by apply append_cancel_l in H.
Qed.

Lemma numbered_inj (i j : nat) :
  numbered folder base_name ext i = numbered folder base_name ext j → i = j.
Proof.
  unfold numbered. intros H. apply joinpath_inj in H.
  do 2 apply append_cancel_l in H.
  apply append_cancel_r in H. by apply zfill_inj in H.
Qed.

Lemma plain_ne_numbered (i : nat) :
  joinpath folder (base_name +:+ ext) ≠ numbered folder base_name ext i.
Proof.
  unfold numbered. intros H. apply joinpath_inj in H.
  apply append_cancel_l in H.
  apply (f_equal String.length) in H.
  rewrite !length_append in H. simpl in H. lia.
Qed.

Lemma nth_candidate_inj (j k : nat) :
  nth_candidate folder base_name ext j = nth_candidate folder base_name ext k → j = k.
Proof.
  destruct j as [|j], k as [|k]; simpl; intros H.
  - done.
  - by apply plain_ne_numbered in H.
  - symmetry in H. by apply plain_ne_numbered in H.
  - by apply numbered_inj in H.
Qed.

Local Abbreviation cand k := (nth_candidate folder base_name ext k).

(** Among the first [n] candidates either all exist, or there is a first
    one that does not. *)
Lemma first_unused (fs : gset string) (n : nat) :
  (∀ k, k < n → cand k ∈ fs) ∨
  (∃ j, j < n ∧ (cand j ∉ fs) ∧ ∀ k, k < j → cand k ∈ fs).
Proof.
  induction n as [|n [IH|IH]].
  - left. intros k Hk. lia.
  - destruct (decide (cand n ∈ fs)) as [Hin|Hout].
    + left. intros k Hk. destruct (decide (k = n)) as [->|]; [done|]. apply IH. lia.
    + right. exists n. split; [lia|]. split; [done|]. exact IH.
  - right. destruct IH as (j & Hj & Hout & Hlt). exists j. split; [lia|]. done.
Qed.

(** Pigeonhole: the candidates are pairwise distinct, so at most [size fs]
    of them exist. *)
Lemma not_all_candidates_exist (fs : gset string) :
  ¬ (∀ k, k < S (size fs) → cand k ∈ fs).
Proof.
  intros Hall.
  set (l := nth_candidate folder base_name ext <$> seq 0 (S (size fs))).
  assert (Hnd : NoDup l).
  { apply NoDup_fmap_2_strong; [|apply NoDup_seq].
    intros j k _ _. apply nth_candidate_inj. }
  assert (Hsub : list_to_set (C := gset string) l ⊆ fs).
  { intros p Hp. apply elem_of_list_to_set in Hp.
    apply list_elem_of_fmap in Hp as (k & -> & Hk).
    apply elem_of_seq in Hk. apply Hall. lia. }
  apply subseteq_size in Hsub.
  rewrite size_list_to_set in Hsub by done.
  unfold l in Hsub. rewrite length_fmap, length_seq in Hsub. lia.
Qed.

Lemma least_unused (fs : gset string) :
  ∃ j, j ≤ size fs ∧ (cand j ∉ fs) ∧ ∀ k, k < j → cand k ∈ fs.
Proof.
  destruct (first_unused fs (S (size fs))) as [Hall|(j & Hj & Hout & Hlt)].
  - by apply not_all_candidates_exist in Hall.
  - exists j. split; [lia|]. done.
Qed.

(** The loop stops at the first numbered candidate that does not exist,
    as soon as the fuel reaches it. *)
Lemma loop_finds (fs : gset string) (fuel i j : nat) :
  i ≤ j → j < i + fuel →
  numbered folder base_name ext j ∉ fs →
  (∀ k, i ≤ k < j → numbered folder base_name ext k ∈ fs) →
  unique_path_loop fs folder base_name ext fuel i
  = Some (numbered folder base_name ext j).
Proof.
  revert i. induction fuel as [|fuel IH]; intros i Hij Hfuel Hout Hin; [lia|].
  simpl. destruct (decide (i = j)) as [->|Hne].
  - by rewrite bool_decide_eq_false_2.
  - rewrite bool_decide_eq_true_2 by (apply Hin; lia).
    apply IH; [lia|lia|done|]. intros k Hk. apply Hin. lia.
Qed.

Lemma unique_path_fuel_finds (fs : gset string) (fuel j : nat) :
  j ≤ fuel → cand j ∉ fs → (∀ k, k < j → cand k ∈ fs) →
  unique_path_fuel fs folder base_name ext fuel = Some (cand j).
Proof.
  intros Hfuel Hout Hin. unfold unique_path_fuel. destruct j as [|j].
  - by rewrite bool_decide_eq_false_2.
  - rewrite bool_decide_eq_true_2 by (apply (Hin 0); lia).
    apply loop_finds; [lia|lia|done|].
    intros k Hk. destruct k as [|k]; [lia|]. apply (Hin (S k)). lia.
Qed.

Lemma unique_path_finds (fs : gset string) (j : nat) :
  cand j ∉ fs → (∀ k, k < j → cand k ∈ fs) →
  unique_path fs folder base_name ext = Some (cand j).
Proof.
  intros Hout Hin. apply unique_path_fuel_finds; [|done|done].
  destruct (Nat.le_gt_cases j (S (size fs))) as [|Hgt]; [done|].
  exfalso. apply (not_all_candidates_exist fs). intros k Hk. apply Hin. lia.
Qed.

End UniquePathFacts.

(** C7. The path allocator terminates: whatever finite set of paths exists,
    some number [n] of iterations, at most the number of existing paths,
    is enough for the loop to reach an unused name and return it. *)
Theorem unique_path_terminates (fs : gset string) (folder base_name ext : string) :
  ∃ (n : nat) (p : string),
    n ≤ size fs ∧ (p ∉ fs) ∧
    ∀ fuel, n ≤ fuel → unique_path_fuel fs folder base_name ext fuel = Some p.
Proof.
  destruct (least_unused folder base_name ext fs) as (j & Hj & Hout & Hin).
  exists j, (nth_candidate folder base_name ext j). split; [done|]. split; [done|].
  intros fuel Hfuel. by apply unique_path_fuel_finds.
Qed.

(** C6, amended.  The allocator returns the first path, in the order
    base+ext, base_001+ext, base_002+ext, ..., that does not exist; it only
    inspects the file system, so it returns the same path again as long as
    the same candidates exist; and once the returned path has been created,
    the next call returns the next candidate after it that does not exist,
    which is base_001+ext when the first call returned base+ext and
    base_001+ext does not exist. *)
Theorem unique_path_spec (fs : gset string) (folder base_name ext : string) :
  let cand := nth_candidate folder base_name ext in
  ∃ j : nat,
    unique_path fs folder base_name ext = Some (cand j) ∧
    (cand j ∉ fs) ∧ (∀ k, k < j → cand k ∈ fs) ∧
    (∀ fs2 : gset string, (∀ k, cand k ∈ fs2 ↔ cand k ∈ fs) →
       unique_path fs2 folder base_name ext = Some (cand j)) ∧
    ∃ j' : nat,
      j < j' ∧
      unique_path ({[cand j]} ∪ fs) folder base_name ext = Some (cand j') ∧
      (cand j' ∉ fs) ∧ (∀ k, j < k < j' → cand k ∈ fs) ∧
      (j = 0 → cand 1 ∉ fs → j' = 1).
Proof.
  intros cand.
  destruct (least_unused folder base_name ext fs) as (j & _ & Hout & Hin).
  exists j. split; [by apply unique_path_finds|]. split; [done|]. split; [done|].
  split.
  { intros fs2 Hsame. apply unique_path_finds.
    - intros H. apply Hout. by apply Hsame.
    - intros k Hk. apply Hsame. by apply Hin. }
  set (fs' := {[cand j]} ∪ fs).
  destruct (least_unused folder base_name ext fs') as (j' & _ & Hout' & Hin').
  fold cand in Hout', Hin'.
  assert (Hlt : j < j').
  { destruct (Nat.le_gt_cases j' j) as [Hle|]; [|done].
    exfalso. apply Hout'. unfold fs'.
    destruct (decide (j' = j)) as [->|]; [set_solver|].
    apply elem_of_union_r, Hin. lia. }
  assert (Hbetween : ∀ k, j < k < j' → cand k ∈ fs).
  { intros k Hk. assert (Hk' : cand k ∈ fs') by (apply Hin'; lia).
    unfold fs' in Hk'. apply elem_of_union in Hk' as [Hk'|Hk']; [|done].
    apply elem_of_singleton in Hk'. apply nth_candidate_inj in Hk'. lia. }
  exists j'. split; [done|]. split; [by apply unique_path_finds|].
  split; [unfold fs' in Hout'; set_solver|]. split; [done|].
  intros -> H1. destruct (decide (j' = 1)) as [|Hne]; [done|].
  exfalso. apply H1, Hbetween. lia.
Qed.

(** C6, as stated, fails: when base_001+ext exists and base+ext does not,
    the first call returns base+ext, and the call made after creating it
    returns base_002+ext, not the path with suffix _001. *)
Lemma unique_path_after_create_not_001 :
  unique_path {["out/a_001.jpg"]} "out" "a" ".jpg" = Some "out/a.jpg" ∧
  unique_path ({["out/a.jpg"]} ∪ {["out/a_001.jpg"]}) "out" "a" ".jpg"
    = Some "out/a_002.jpg" ∧
  "out/a_002.jpg" ≠ numbered "out" "a" ".jpg" 1.
Proof. split; [by vm_compute|]. split; [by vm_compute|]. by vm_compute. Qed.

(** * The output extension *)

Lemma lower_upper_char (c : ascii) :
  (nat_of_ascii c <? 128)%nat = true →
  PyStr.lower_char (PyStr.upper_char c) = PyStr.lower_char c.
Proof. by destruct c as [[] [] [] [] [] [] [] []]. Qed.

(** On ASCII strings, lower-casing the upper-cased string is lower-casing
    the string. *)
Lemma lower_upper_ascii (s : string) :
  is_ascii s = true → PyStr.lower (PyStr.upper s) = PyStr.lower s.
Proof.
  induction s as [|c s IH]; simpl; [done|].
  intros [Hc Hs]%andb_true_iff. by rewrite lower_upper_char, IH.
Qed.

Lemma upper_is_ascii (s : string) :
  is_ascii s = true → is_ascii (PyStr.upper s) = true.
Proof.
  induction s as [|c s IH]; simpl; [done|].
  intros [Hc Hs]%andb_true_iff. rewrite (IH Hs), andb_true_r.
  revert Hc. by destruct c as [[] [] [] [] [] [] [] []].
Qed.

Lemma upper_eszett_ascii (s : string) :
  is_ascii s = true → Demo.upper_eszett s = PyStr.upper s.
Proof.
  induction s as [|c s IH]; simpl; [done|].
  intros [Hc%Nat.ltb_lt Hs]%andb_true_iff.
  destruct (Nat.eqb_spec (nat_of_ascii c) 195) as [Heq|_]; [lia|].
  by rewrite (IH Hs).
Qed.

(** C8, amended.  The format name is upper-cased first.  When the
    upper-cased name is "JPEG" (so for "jpeg" too) the extension is
    [.jpg]; otherwise it is a dot followed by the lowercase form of the
    upper-cased name, which for a name of ASCII characters is the
    lowercase form of the name itself; "JPEG" gives [.jpg] and "PNG" gives
    [.png].  This holds for every pair of case mappings that, like
    Python's, are the ASCII ones on strings of ASCII characters. *)
Theorem output_ext_spec (up lo : string → string) (output_format : string) :
  (∀ s, is_ascii s = true → up s = PyStr.upper s) →
  (∀ s, is_ascii s = true → lo s = PyStr.lower s) →
  output_ext_of up lo output_format
  = (if String.eqb (up output_format) "JPEG" then ".jpg"
     else "." +:+ lo (up output_format))
  ∧ (is_ascii output_format = true →
     output_ext_of up lo output_format = output_ext output_format ∧
     output_ext output_format
     = (if String.eqb (PyStr.upper output_format) "JPEG" then ".jpg"
        else "." +:+ PyStr.lower output_format))
  ∧ output_ext_of up lo "JPEG" = ".jpg" ∧ output_ext_of up lo "PNG" = ".png"
  ∧ output_ext "JPEG" = ".jpg" ∧ output_ext "PNG" = ".png".
Proof.
  intros Hup Hlo. split; [done|]. split.
  - intros Hascii. unfold output_ext, output_ext_of. cbv zeta.
    rewrite (Hup _ Hascii), (Hlo _ (upper_is_ascii _ Hascii)).
    by rewrite lower_upper_ascii.
  - unfold output_ext_of. cbv zeta.
    rewrite (Hup "JPEG" eq_refl), (Hup "PNG" eq_refl).
    change (PyStr.upper "PNG") with "PNG". change (PyStr.upper "JPEG") with "JPEG".
    by rewrite (Hlo "PNG" eq_refl).
Qed.

Lemma output_ext_spec_witness :
  output_ext "Png" = ".png" ∧
  output_ext_of Demo.upper_eszett PyStr.lower Demo.eszett = ".ss".
Proof.
  split.
  - apply (proj2 (proj1 (proj2 (output_ext_spec PyStr.upper PyStr.lower "Png"
                                  (λ _ _, eq_refl) (λ _ _, eq_refl))) eq_refl)).
  - etrans; [apply (proj1 (output_ext_spec Demo.upper_eszett PyStr.lower Demo.eszett
                             upper_eszett_ascii (λ _ _, eq_refl)))|].
    reflexivity.
Defined.

(** C8, as stated, fails: "jpeg" is a format name other than "JPEG", and
    its extension is [.jpg], not a dot followed by its lowercase form. *)
Lemma output_ext_lowercase_jpeg :
  "jpeg" ≠ "JPEG" ∧ output_ext "jpeg" = ".jpg" ∧ ext_as_specified "jpeg" = ".jpeg" ∧
  output_ext "jpeg" ≠ ext_as_specified "jpeg".
Proof. done. Qed.

(** * Colour-mode normalisation *)

(** X19.  What [ensure_rgb] does: it hands an image in one of the four
    modes RGBA, LA, P and CMYK (each of them has alpha, is a palette mode
    or is CMYK) to [convert], whose result is in mode RGB, and returns an
    image in any other mode as it is; the modes with alpha or a palette
    among those it returns as they are, are PA, La and RGBa. *)
Theorem ensure_rgb_spec (lib : Lib) (img : Image) :
  (mode img ∈ ["RGBA"; "LA"; "P"; "CMYK"] →
     ensure_rgb lib img = convert lib img "RGB" ∧
     converted_as_specified (mode img) = true ∧
     ∀ img', ensure_rgb lib img = Ok img' → img' = with_mode "RGB" img ∧ mode img' = "RGB") ∧
  (mode img ∉ ["RGBA"; "LA"; "P"; "CMYK"] →
     ensure_rgb lib img = Ok img ∧
     (converted_as_specified (mode img) = true → mode img ∈ ["PA"; "La"; "RGBa"])).
Proof.
  unfold ensure_rgb. split; intros Hm.
  - rewrite bool_decide_eq_true_2 by done. split; [done|]. split.
    + rewrite !elem_of_cons in Hm.
      destruct Hm as [->|[->|[->|[->|Hm]]]]; [done..|by apply elem_of_nil in Hm].
    + intros img'. unfold convert. destruct (convert_error lib img "RGB"); [done|].
      by intros [= <-].
  - rewrite bool_decide_eq_false_2 by done. split; [done|].
    unfold converted_as_specified, has_alpha, is_palette, is_cmyk.
    rewrite !orb_true_iff, !bool_decide_eq_true, String.eqb_eq.
    rewrite !elem_of_cons, !elem_of_nil in *. intuition (subst; auto 10).
Qed.

Lemma ensure_rgb_spec_witness :
  ensure_rgb Demo.lib (Demo.plain "RGBA") = convert Demo.lib (Demo.plain "RGBA") "RGB" ∧
  ensure_rgb Demo.lib (Demo.plain "L") = Ok (Demo.plain "L").
Proof.
  split.
  - apply (ensure_rgb_spec Demo.lib (Demo.plain "RGBA")). simpl.
    apply list_elem_of_here.
  - apply (ensure_rgb_spec Demo.lib (Demo.plain "L")). simpl.
    unfold not. rewrite !elem_of_cons, elem_of_nil.
    intros H. decompose [or] H; [discriminate..|done].
Defined.

(** C9.  The code misses a case of the claim: PA is a palette mode with
    an alpha band, the docstring of [ensure_rgb] promises the conversion
    to RGB that JPEG needs, and [ensure_rgb] returns an image in mode PA
    as it is.  With a [save] that, like Pillow's, cannot write mode PA as
    JPEG, the file is then not written and one error line is printed. *)
Lemma ensure_rgb_keeps_PA :
  has_alpha "PA" = true ∧ is_palette "PA" = true ∧
  converted_as_specified (mode (Demo.plain "PA")) = true ∧
  ensure_rgb Demo.lib (Demo.plain "PA") = Ok (Demo.plain "PA") ∧
  mode (Demo.plain "PA") ≠ "RGB" ∧
  ∃ r, process_images Demo.lib Demo.config (Some ["in/e.tif"]) false ∅ = Returned r ∧
       printed r = ["[ERREUR] in/e.tif: cannot write mode PA as JPEG"] ∧
       final_fs r = {["out"]}.
Proof.
  do 5 (split; [done|]). eexists. split; [vm_compute; reflexivity|]. by vm_compute.
Qed.

(** * The timestamp resolver *)

Section ExifDatetime.

Context (lib : Lib).

(** The loop over the entries returns a date exactly when the first
    DateTimeOriginal string entry is reached without a read error and its
    value parses. *)
Lemma scan_exif_items_found (items : list (res (Z * exif_value))) (d : datetime) :
  scan_exif_items lib items = Ok (Some d) ↔
  ∃ pre rest k s,
    items = pre ++ Ok (k, VStr s) :: rest ∧
    Forall (λ r, ∃ k' v', r = Ok (k', v') ∧
                 (is_DateTimeOriginal lib k' = false ∨ isinstance_str v' = None)) pre ∧
    is_DateTimeOriginal lib k = true ∧
    fromisoformat lib (PyStr.replace_char ":" "-" 2 s) = Ok d.
Proof.
  split.
  - induction items as [|[[k v]|e] items IH]; simpl; [done| |done].
    destruct (is_DateTimeOriginal lib k) eqn:Hk.
    + destruct v as [s|z|b]; simpl.
      * destruct (fromisoformat lib _) as [d'|e] eqn:Hd; simpl; [|done].
        intros [= ->]. by exists [], items, k, s.
      * intros (pre & rest & k' & s & -> & Hpre & Hk' & Hd)%IH.
        exists (Ok (k, VInt z) :: pre), rest, k', s.
        split; [done|]. split; [|done]. constructor; [|done].
        exists k, (VInt z). split; [done|]. by right.
      * intros (pre & rest & k' & s & -> & Hpre & Hk' & Hd)%IH.
        exists (Ok (k, VBytes b) :: pre), rest, k', s.
        split; [done|]. split; [|done]. constructor; [|done].
        exists k, (VBytes b). split; [done|]. by right.
    + intros (pre & rest & k' & s & -> & Hpre & Hk' & Hd)%IH.
      exists (Ok (k, v) :: pre), rest, k', s.
      split; [done|]. split; [|done]. constructor; [|done].
      exists k, v. split; [done|]. by left.
  - intros (pre & rest & k & s & -> & Hpre & Hk & Hd).
    induction Hpre as [|r pre (k' & v' & -> & Hskip) _ IH]; simpl.
    + by rewrite Hk, Hd.
    + destruct Hskip as [->|Hv]; [done|].
      destruct (is_DateTimeOriginal lib k'); [|done]. by rewrite Hv.
Qed.

(** What the first [try] block of [exif_datetime] leaves. *)
Lemma first_block_found (img : Image) (d : datetime) :
  try_except
    (exif ← getexif img;
     if negb (bool_decide (exif = [])) then scan_exif_items lib exif else Ok None)
    (λ _, Ok None) = Ok (Some d)
  ↔ top_level_capture_time lib img d.
Proof.
  unfold top_level_capture_time. destruct (getexif img) as [items|e]; simpl.
  - destruct items as [|r items].
    + simpl. split; [done|].
      intros (pre & rest & k & s & [= H] & _). by destruct pre.
    + change (negb (bool_decide (r :: items = []))) with true. cbv iota.
      split.
      * destruct (scan_exif_items lib (r :: items)) as [[d'|]|e] eqn:Hscan;
          simpl; [|done..].
        intros [= ->]. apply scan_exif_items_found in Hscan
          as (pre & rest & k & s & Hitems & H).
        exists pre, rest, k, s. by rewrite Hitems.
      * intros (pre & rest & k & s & [= Hitems] & H).
        assert (Hscan : scan_exif_items lib (r :: items) = Ok (Some d)).
        { apply scan_exif_items_found. exists pre, rest, k, s. done. }
        by rewrite Hscan.
  - split; [done|]. by intros (pre & rest & k & s & [=] & _).
Qed.

Lemma first_block_total (img : Image) :
  ∃ found,
    try_except
      (exif ← getexif img;
       if negb (bool_decide (exif = [])) then scan_exif_items lib exif else Ok None)
      (λ _, Ok None) = Ok found.
Proof.
  destruct (getexif img) as [items|e]; simpl; [|by eexists].
  destruct (negb _); [|by eexists].
  destruct (scan_exif_items lib items); simpl; by eexists.
Qed.

End ExifDatetime.

(** X18.  The timestamp resolver never raises, and the date it returns
    follows the chain over what it reads: the first DateTimeOriginal string
    entry of the main EXIF directory when the entries up to it can be read
    and its value parses; otherwise the last-modified time of the file
    when it can be read; otherwise the current time. *)
Theorem exif_datetime_chain (lib : Lib) (img : Image) (src : Path) :
  (∃ d, exif_datetime lib img src = Ok d) ∧
  (∀ d, top_level_capture_time lib img d → exif_datetime lib img src = Ok d) ∧
  (∀ d, (∀ d1, ¬ top_level_capture_time lib img d1) → modified_time lib src d →
        exif_datetime lib img src = Ok d) ∧
  ((∀ d1, ¬ top_level_capture_time lib img d1) → (∀ d2, ¬ modified_time lib src d2) →
   exif_datetime lib img src = Ok (now lib src)).
Proof.
  unfold exif_datetime.
  destruct (first_block_total lib img) as [found Hfound].
  assert (Hnone : (∀ d1, ¬ top_level_capture_time lib img d1) → found = None).
  { intros Hno. destruct found as [d1|]; [|done].
    exfalso. apply (Hno d1). by apply first_block_found. }
  split; [|split; [|split]].
  - rewrite Hfound. simpl. destruct found as [d|]; [by eexists|].
    destruct (st_mtime lib src) as [ts|e]; simpl; [|by eexists].
    destruct (fromtimestamp lib ts); simpl; by eexists.
  - intros d Hd. apply first_block_found in Hd. by rewrite Hd.
  - intros d Hno (ts & Hts & Hd). rewrite Hfound, (Hnone Hno). simpl.
    by rewrite Hts; simpl; rewrite Hd.
  - intros Hno Hno2. rewrite Hfound, (Hnone Hno). simpl.
    destruct (st_mtime lib src) as [ts|e] eqn:Hts; simpl; [|done].
    destruct (fromtimestamp lib ts) as [d|e] eqn:Hd; simpl; [|done].
    exfalso. apply (Hno2 d). by exists ts.
Qed.

Lemma exif_datetime_chain_witness :
  exif_datetime Demo.lib (Demo.shot "2023:01:15 10:30:00" "RGB") "in/a.jpg"
    = Ok {| year := 2023; month := 1; day := 15; hour := 10; minute := 30; second := 0 |} ∧
  exif_datetime Demo.lib (Demo.plain "RGBA") "in/c.png"
    = Ok {| year := 2024; month := 1; day := 5; hour := 0; minute := 0; second := 0 |} ∧
  exif_datetime Demo.lib (Demo.plain "RGB") "in/x.jpg" = Ok (now Demo.lib "in/x.jpg").
Proof.
  assert (Hplain : ∀ m d1, ¬ top_level_capture_time Demo.lib (Demo.plain m) d1).
  { intros m d1 (pre & rest & k & s & H & _). simpl in H.
    destruct pre; discriminate H. }
  split; [|split].
  - apply (proj1 (proj2
      (exif_datetime_chain Demo.lib (Demo.shot "2023:01:15 10:30:00" "RGB") "in/a.jpg"))).
    exists [Ok (271%Z, VStr "Camera")], [], 36867%Z, "2023:01:15 10:30:00".
    split; [reflexivity|]. split; [|split; reflexivity].
    constructor; [|constructor]. exists 271%Z, (VStr "Camera"). split; [reflexivity|].
    left. reflexivity.
  - apply (proj1 (proj2 (proj2
      (exif_datetime_chain Demo.lib (Demo.plain "RGBA") "in/c.png")))); [apply Hplain|].
    exists (4 * 86400)%Z. split; reflexivity.
  - apply (proj2 (proj2 (proj2
      (exif_datetime_chain Demo.lib (Demo.plain "RGB") "in/x.jpg")))); [apply Hplain|].
    intros d2 (ts & Hts & _). discriminate Hts.
Defined.

(** C5.  The code misses step 1 of the claim on photos as cameras write
    them: DateTimeOriginal is present, in the Exif sub-directory, and
    parses, but the resolver only goes over the entries of the main
    directory and returns the last-modified time instead.  Whatever the
    sub-directory holds, the result is the same. *)
Lemma exif_datetime_misses_exif_ifd :
  embedded_capture_time Demo.lib (Demo.photo "2023:01:15 10:30:00" "RGB")
    {| year := 2023; month := 1; day := 15; hour := 10; minute := 30; second := 0 |} ∧
  exif_datetime Demo.lib (Demo.photo "2023:01:15 10:30:00" "RGB") "in/c.png"
    = Ok {| year := 2024; month := 1; day := 5; hour := 0; minute := 0; second := 0 |} ∧
  (∀ (lib : Lib) (m : string) (items : res (list (res (Z * exif_value))))
     (ifd1 ifd2 : list (Z * exif_value)) (e i : option string) (src : Path),
     exif_datetime lib {| mode := m; getexif := items; exif_ifd := ifd1;
                          info_exif := e; info_icc := i |} src
     = exif_datetime lib {| mode := m; getexif := items; exif_ifd := ifd2;
                            info_exif := e; info_icc := i |} src).
Proof.
  split; [|split; [done|done]].
  exists 36867%Z, "2023:01:15 10:30:00". split; [done|]. split; [|done].
  right. simpl. apply list_elem_of_here.
Qed.

(** * The name builder *)

Section DayKey.

Lemma zfill_length_4 (y : nat) : y < 10 ^ 4 → String.length (PyStr.zfill 4 y) = 4.
Proof.
  intros Hy.
  assert (Hall : forallb (λ n, String.length (PyStr.zfill 4 n) =? 4) (seq 0 (10 ^ 4)) = true)
    by (vm_compute; reflexivity).
  rewrite forallb_forall in Hall.
  apply Nat.eqb_eq, Hall, in_seq. lia.
Qed.

Lemma zfill_length_2 (m : nat) : m < 100 → String.length (PyStr.zfill 2 m) = 2.
Proof.
  intros Hm.
  assert (Hall : forallb (λ n, String.length (PyStr.zfill 2 n) =? 2) (seq 0 100) = true)
    by (vm_compute; reflexivity).
  rewrite forallb_forall in Hall.
  apply Nat.eqb_eq, Hall, in_seq. lia.
Qed.

(** The day-key determines the calendar day. *)
Lemma strftime_Ymd_inj (d1 d2 : datetime) :
  valid_date d1 → valid_date d2 →
  strftime_Ymd d1 = strftime_Ymd d2 → same_day d1 d2.
Proof.
  intros (Hy1 & Hm1 & Hd1) (Hy2 & Hm2 & Hd2). unfold strftime_Ymd. intros H.
  apply append_inj_length in H as [Hy H];
    [|rewrite !zfill_length_4; [done|lia|lia]].
  apply append_inj_length in H as [Hm Hd];
    [|rewrite !zfill_length_2; [done|lia|lia]].
  apply zfill_inj in Hy, Hm, Hd. done.
Qed.

Lemma strftime_Ymd_same_day (d1 d2 : datetime) :
  same_day d1 d2 → strftime_Ymd d1 = strftime_Ymd d2.
Proof. intros (Hy & Hm & Hd). unfold strftime_Ymd. by rewrite Hy, Hm, Hd. Qed.

End DayKey.

Lemma at_day_valid (d h : nat) : 1 ≤ d ≤ 31 → valid_date (Demo.at_day d h).
Proof.
  intros Hd. unfold valid_date. cbn [Demo.at_day year month day].
  repeat split; try lia. apply Nat.ltb_lt. by vm_compute.
Qed.

Lemma demo_files_valid : Forall (λ f : string * datetime, valid_date f.2) Demo.files.
Proof.
  unfold Demo.files.
  repeat (apply List.Forall_cons; [apply at_day_valid; lia|]). apply List.Forall_nil.
Qed.

Section NameBuilder.

Context (lib : Lib) (config : PhotoConfig) (parent_name : string).

(** What a call does to the counters: the entry of the day-key, and no
    other, becomes one more than it was (one if it was absent). *)
Lemma build_base_name_counters (src : Path) (counters : gmap string nat) (dt : datetime) :
  (_build_base_name lib config src parent_name counters dt).2
  = <[strftime_Ymd dt := S (default 0 (counters !! strftime_Ymd dt))]> counters.
Proof.
  unfold _build_base_name. simpl.
  destruct (counters !! strftime_Ymd dt) as [v|] eqn:Hv; simpl.
  - rewrite (lookup_total_correct _ _ _ Hv). f_equal. lia.
  - rewrite lookup_total_insert_eq, insert_insert_eq. done.
Qed.

Lemma build_base_name_counter (src : Path) (counters : gmap string nat) (dt : datetime) :
  (_build_base_name lib config src parent_name counters dt).2 !!! strftime_Ymd dt
  = S (default 0 (counters !! strftime_Ymd dt)).
Proof. by rewrite build_base_name_counters, lookup_total_insert_eq. Qed.

Lemma build_base_name_result (src : Path) (counters : gmap string nat) (dt : datetime) :
  let key := strftime_Ymd dt in
  let n := S (default 0 (counters !! key)) in
  (_build_base_name lib config src parent_name counters dt).1
  = try_except
      (base ← str_format lib (rename_pattern config)
                {| ctx_folder := parent_name; ctx_date := key;
                   ctx_counter := n; ctx_orig := path_stem lib src |};
       if PyStr.is_empty base then Err (Exception "empty name") else Ok base)
      (λ _, Ok (parent_name +:+ "_" +:+ key +:+ "_" +:+ PyStr.zfill 3 n)).
Proof.
  intros key n.
  pose proof (build_base_name_counter src counters dt) as Hn.
  unfold _build_base_name in *. simpl in *. fold key in Hn |- *. by rewrite Hn.
Qed.

Lemma fallback_nonempty (key : string) (n : nat) :
  parent_name +:+ "_" +:+ key +:+ "_" +:+ PyStr.zfill 3 n ≠ "".
Proof.
  intros H. apply (f_equal String.length) in H.
  rewrite !length_append in H. simpl in H. lia.
Qed.

Lemma name_all_same_day (files : list (Path * datetime)) (d0 : datetime)
    (counters : gmap string nat) :
  Forall (λ f, valid_date f.2) files → valid_date d0 →
  (filter (λ x, same_day d0 x.1) (name_all lib config parent_name files counters)).*2
  = seq (S (default 0 (counters !! strftime_Ymd d0)))
        (length (filter (λ f, same_day d0 f.2) files)).
Proof.
  intros Hvalid Hd0. revert counters.
  induction Hvalid as [|[src dt] files Hdt _ IH]; intros counters; [done|].
  simpl in Hdt. cbn [name_all].
  rewrite build_base_name_counter.
  rewrite (filter_cons (λ x, same_day d0 x.1)), (filter_cons (λ f, same_day d0 f.2)).
  cbn [fst snd].
  destruct (decide (same_day d0 dt)) as [Hsame|Hdiff].
  - cbn [fmap list_fmap snd length seq]. rewrite IH, build_base_name_counters.
    rewrite <- (strftime_Ymd_same_day _ _ Hsame), lookup_insert_eq. done.
  - rewrite IH, build_base_name_counters.
    rewrite lookup_insert_ne; [done|].
    intros Hkey. apply Hdiff. symmetry in Hkey. apply strftime_Ymd_inj; done.
Qed.

(** The entry of a day-key after the name builder has gone over the
    files: what it was, plus the number of files of that day. *)
Lemma counters_after_lookup (files : list (Path * datetime)) (counters : gmap string nat)
    (k : string) :
  counters_after lib config parent_name files counters !! k
  = (let n := length (filter (λ f, strftime_Ymd f.2 = k) files) in
     if n =? 0 then counters !! k else Some (default 0 (counters !! k) + n)).
Proof.
  unfold counters_after. revert counters.
  induction files as [|[src dt] files IH]; intros counters; [done|].
  cbn [foldl fst snd]. rewrite IH, build_base_name_counters.
  rewrite (filter_cons (λ f, strftime_Ymd f.2 = k)). cbn [snd]. cbv zeta.
  destruct (decide (strftime_Ymd dt = k)) as [->|Hne].
  - rewrite lookup_insert_eq. cbn [length default].
    destruct (length (filter _ files)) as [|n]; simpl; f_equal; lia.
  - by rewrite lookup_insert_ne.
Qed.

(** The name a call returns is the name with the incremented counter. *)
Lemma build_base_name_name (src : Path) (counters : gmap string nat) (dt : datetime) :
  (_build_base_name lib config src parent_name counters dt).1
  = Ok (name_with_counter lib config parent_name src dt
          (S (default 0 (counters !! strftime_Ymd dt)))).
Proof.
  rewrite build_base_name_result. cbv zeta. unfold name_with_counter.
  destruct (str_format lib _ _) as [[|c base]|e]; done.
Qed.

(** The name of the file at position [i] comes from the call made on the
    counters that the files before it have left. *)
Lemma build_all_lookup (files : list (Path * datetime)) (counters : gmap string nat)
    (i : nat) (src : Path) (dt : datetime) :
  files !! i = Some (src, dt) →
  build_all lib config parent_name files counters !! i
  = Some (_build_base_name lib config src parent_name
            (counters_after lib config parent_name (take i files) counters) dt).1.
Proof.
  revert counters i. induction files as [|[src0 dt0] files IH]; intros counters i Hi;
    [done|].
  cbn [build_all].
  destruct (_build_base_name lib config src0 parent_name counters dt0)
    as [named c1] eqn:Hb.
  destruct i as [|i].
  - injection Hi as -> ->. cbn -[_build_base_name]. by rewrite Hb.
  - cbn -[_build_base_name build_all counters_after] in Hi |- *.
    etrans; [exact (IH c1 i Hi)|].
    unfold counters_after. cbn [foldl fst snd]. by rewrite Hb.
Qed.

Lemma same_key_count (l : list (Path * datetime)) (dt : datetime) :
  Forall (λ f, valid_date f.2) l → valid_date dt →
  length (filter (λ f, strftime_Ymd f.2 = strftime_Ymd dt) l)
  = length (filter (λ f, same_day dt f.2) l).
Proof.
  intros Hl Hdt. induction Hl as [|f l Hf _ IH]; [done|].
  rewrite (filter_cons (λ f, strftime_Ymd f.2 = strftime_Ymd dt)),
          (filter_cons (λ f, same_day dt f.2)).
  destruct (decide (strftime_Ymd f.2 = strftime_Ymd dt)) as [Hk|Hk];
    destruct (decide (same_day dt f.2)) as [Hs|Hs]; simpl; try by rewrite IH.
  - exfalso. apply Hs. symmetry in Hk. by apply strftime_Ymd_inj.
  - exfalso. apply Hk. symmetry. by apply strftime_Ymd_same_day.
Qed.

(** The counter of the file at position [i]: one more than the entry the
    starting counters had for its day-key, plus the number of files of
    that day-key before it. *)
Lemma build_all_counter (files : list (Path * datetime)) (counters : gmap string nat)
    (i : nat) (src : Path) (dt : datetime) :
  files !! i = Some (src, dt) →
  build_all lib config parent_name files counters !! i
  = Some (Ok (name_with_counter lib config parent_name src dt
                (S (default 0 (counters !! strftime_Ymd dt)
                    + length (filter (λ f, strftime_Ymd f.2 = strftime_Ymd dt)
                                (take i files)))))).
Proof.
  intros Hi. rewrite (build_all_lookup files counters i src dt Hi).
  rewrite build_base_name_name, counters_after_lookup. cbv zeta.
  destruct (length (filter _ (take i files))) as [|n]; simpl.
  - by rewrite Nat.add_0_r.
  - done.
Qed.

End NameBuilder.

(** C4.  The name builder never raises and returns a non-empty name: the
    rendered template when rendering succeeds with a non-empty result, and
    otherwise (rendering raised, or gave the empty string) the fallback
    folder, day-key and counter padded to three digits, joined by
    underscores.  The counter is the incremented entry of the day-key. *)
Theorem build_base_name_total (lib : Lib) (config : PhotoConfig) (src : Path)
    (parent_name : string) (counters : gmap string nat) (dt : datetime) :
  let key := strftime_Ymd dt in
  let n := S (default 0 (counters !! key)) in
  let rendered :=
    str_format lib (rename_pattern config)
      {| ctx_folder := parent_name; ctx_date := key;
         ctx_counter := n; ctx_orig := path_stem lib src |} in
  let fallback := parent_name +:+ "_" +:+ key +:+ "_" +:+ PyStr.zfill 3 n in
  ∃ name : string,
    (_build_base_name lib config src parent_name counters dt).1 = Ok name ∧
    name ≠ "" ∧
    (∀ s, rendered = Ok s → s ≠ "" → name = s) ∧
    (∀ e, rendered = Err e → name = fallback) ∧
    (rendered = Ok "" → name = fallback).
Proof.
  intros key n rendered fallback.
  rewrite build_base_name_result. fold key n rendered fallback.
  destruct rendered as [s|e] eqn:Hr; simpl.
  - destruct s as [|c s]; simpl.
    + exists fallback. split; [done|]. split; [apply fallback_nonempty|].
      split; [by intros s [= <-]|]. done.
    + exists (String c s). split; [done|]. split; [done|].
      split; [by intros s' [= <-]|]. done.
  - exists fallback. split; [done|]. split; [apply fallback_nonempty|]. done.
Qed.

Lemma build_base_name_total_witness :
  (_build_base_name Demo.lib Demo.config "in/a.jpg" "in" ∅ (Demo.at_day 15 10)).1
    = Ok "in_20230115_001" ∧
  (_build_base_name Demo.lib Demo.bad_config "in/a.jpg" "in" ∅ (Demo.at_day 15 10)).1
    = Ok "in_20230115_001".
Proof.
  split.
  - destruct (build_base_name_total Demo.lib Demo.config "in/a.jpg" "in" ∅
                (Demo.at_day 15 10)) as (name & Hname & _ & Hok & _ & _).
    rewrite Hname. f_equal. apply Hok; [reflexivity|discriminate].
  - destruct (build_base_name_total Demo.lib Demo.bad_config "in/a.jpg" "in" ∅
                (Demo.at_day 15 10)) as (name & Hname & _ & _ & Herr & _).
    rewrite Hname. f_equal. apply (Herr (Exception "album")). reflexivity.
Defined.

(** * The batch *)

Section Batch.

Context (lib : Lib) (config : PhotoConfig) (parent_name fmt ext : string).

Lemma unique_path_returns (fs : gset string) (folder base_name : string) :
  ∃ p, unique_path fs folder base_name ext = Some p.
Proof.
  destruct (least_unused folder base_name ext fs) as (j & _ & Hout & Hin).
  eexists. by apply unique_path_finds.
Qed.

Lemma pipeline_returns (src : Path) (im0 : Image) (counters : gmap string nat)
    (fs : gset string) :
  ∃ i, pipeline lib config parent_name fmt ext src im0 counters fs = Some i.
Proof.
  unfold pipeline.
  destruct (exif_transpose lib im0) as [im1|]; [|by eexists].
  destruct (exif_datetime lib im1 src) as [dt|]; [|by eexists].
  destruct (_build_base_name lib config src parent_name counters dt) as [[base|] c1];
    [|by eexists].
  destruct (ensure_rgb lib im1) as [im2|]; [|by eexists].
  destruct (thumbnail lib im2 _) as [im3|]; [|by eexists].
  destruct (unique_path_returns fs (dest_dir config) base) as [p ->].
  destruct (save lib fs im3 p _). by eexists.
Qed.

(** One file always comes back to the loop: with no exception, or with the
    exception that reached the [except] clause. *)
Lemma attempt_returns (src : Path) (counters : gmap string nat) (fs : gset string) :
  ∃ c f r, attempt lib config parent_name fmt ext src counters fs = Some (c, f, r).
Proof.
  unfold attempt. destruct (image_open lib src) as [im0|e]; [|by eexists _, _, _].
  destruct (pipeline_returns src im0 counters fs) as [i ->].
  destruct (close lib (in_im i)); by eexists _, _, _.
Qed.

(** No exception reaches the [except] clause exactly when every step of
    the pipeline went through. *)
Lemma attempt_ok_iff (src : Path) (counters : gmap string nat) (fs : gset string) :
  (∃ c f, attempt lib config parent_name fmt ext src counters fs = Some (c, f, Ok ()))
  ↔ stages_succeed lib config parent_name fmt ext src counters fs.
Proof.
  unfold stages_succeed, attempt, pipeline. split.
  - intros (c & f & H).
    destruct (image_open lib src) as [im0|] eqn:H0; [|done].
    destruct (exif_transpose lib im0) as [im1|] eqn:H1;
      [|by destruct (close lib _)].
    destruct (exif_datetime lib im1 src) as [dt|] eqn:H2;
      [|by destruct (close lib _)].
    destruct (_build_base_name lib config src parent_name counters dt)
      as [[base|] c1] eqn:H3; [|by destruct (close lib _)].
    destruct (ensure_rgb lib im1) as [im2|] eqn:H4; [|by destruct (close lib _)].
    destruct (thumbnail lib im2 _) as [im3|] eqn:H5; [|by destruct (close lib _)].
    destruct (unique_path fs (dest_dir config) base ext) as [p|] eqn:H6; [|done].
    destruct (save lib fs im3 p _) as [saved fs1] eqn:H7.
    simpl in H. destruct (close lib im3) as [[]|] eqn:H8; [|done].
    injection H as _ _ ->.
    exists im0, im1, im2, im3, dt, base, c1, p.
    rewrite H7. done.
  - intros (im0 & im1 & im2 & im3 & dt & base & c1 & p
            & -> & -> & -> & -> & -> & -> & -> & H7 & H8).
    destruct (save lib fs im3 p _) as [saved fs1]. simpl in *.
    rewrite H8, H7. by eexists _, _.
Qed.

Lemma process_file_spec (progress_cb : bool) (total : nat) (src : Path) (st : Run) :
  ∃ c f r,
    attempt lib config parent_name fmt ext src (run_counters st) (run_fs st)
      = Some (c, f, r) ∧
    process_file lib config parent_name fmt ext progress_cb total src st
      = Some {| run_fs := f;
                run_stdout := run_stdout st ++
                  match r with Ok _ => [] | Err e => [error_line src e] end;
                run_progress := run_progress st ++
                  (if progress_cb then [(S (run_processed st), total)] else []);
                run_counters := c;
                run_processed := S (run_processed st) |}.
Proof.
  destruct (attempt_returns src (run_counters st) (run_fs st)) as (c & f & r & Ha).
  exists c, f, r. split; [done|]. unfold process_file. rewrite Ha.
  rewrite Nat.add_1_r. do 2 f_equal.
  - destruct r; [by rewrite app_nil_r|done].
  - destruct progress_cb; [done|by rewrite app_nil_r].
Qed.

(** A file changes the counters by its call of the name builder, if it
    gets that far, and not otherwise. *)
Lemma attempt_counters (src : Path) (counters : gmap string nat) (fs : gset string)
    (c : gmap string nat) (f : gset string) (r : res ()) :
  attempt lib config parent_name fmt ext src counters fs = Some (c, f, r) →
  c = counters_after lib config parent_name (named_files lib [src]) counters.
Proof.
  assert (Hclose : ∀ (i : Inner) (c0 : gmap string nat),
            in_counters i = c0 →
            match close lib (in_im i) with
            | Ok _ => Some (in_counters i, in_fs i, in_result i)
            | Err e => Some (in_counters i, in_fs i, Err e)
            end = Some (c, f, r) → c = c0).
  { intros i c0 <-. by destruct (close lib (in_im i)); intros [= <- _ _]. }
  unfold attempt, pipeline, named_files, reaches_naming, counters_after.
  cbn [omap list_omap].
  destruct (image_open lib src) as [im0|]; cbn [fmap option_fmap option_map foldl];
    [|by intros [= <- _ _]].
  destruct (exif_transpose lib im0) as [im1|]; cbn [fmap option_fmap option_map foldl];
    [|by apply Hclose].
  destruct (exif_datetime lib im1 src) as [dt|]; cbn [fmap option_fmap option_map foldl];
    [|by apply Hclose].
  cbn [fst snd].
  destruct (_build_base_name lib config src parent_name counters dt) as [[base|] c1];
    cbn [fst snd]; [|by apply Hclose].
  destruct (ensure_rgb lib im1) as [im2|]; [|by apply Hclose].
  destruct (thumbnail lib im2 _) as [im3|]; [|by apply Hclose].
  destruct (unique_path fs (dest_dir config) base ext) as [p|]; [|done].
  destruct (save lib fs im3 p _) as [saved fs1]. by apply Hclose.
Qed.

Lemma named_files_cons (src : Path) (l : list Path) :
  named_files lib (src :: l) = named_files lib [src] ++ named_files lib l.
Proof. unfold named_files. simpl. by destruct (reaches_naming lib src). Qed.

Lemma process_loop_app (progress_cb : bool) (total : nat) (l1 l2 : list Path) (st : Run) :
  process_loop lib config parent_name fmt ext progress_cb total (l1 ++ l2) st
  = st1 ← process_loop lib config parent_name fmt ext progress_cb total l1 st;
    process_loop lib config parent_name fmt ext progress_cb total l2 st1.
Proof.
  revert st. induction l1 as [|src l1 IH]; intros st; simpl; [done|].
  destruct (process_file _ _ _ _ _ _ _ _ _) as [st'|]; [|done]. apply IH.
Qed.

(** The loop goes through the whole list: every file is counted, and the
    sink receives one call per file, numbered from the count so far. *)
Lemma process_loop_spec (progress_cb : bool) (total : nat) (l : list Path) (st : Run) :
  ∃ st',
    process_loop lib config parent_name fmt ext progress_cb total l st = Some st' ∧
    run_processed st' = run_processed st + length l ∧
    run_progress st' = run_progress st ++
      (if progress_cb
       then (λ i, (run_processed st + i, total)) <$> seq 1 (length l) else []).
Proof.
  revert st. induction l as [|src l IH]; intros st.
  - exists st. split; [done|]. split; [simpl; lia|].
    destruct progress_cb; simpl; by rewrite app_nil_r.
  - destruct (process_file_spec progress_cb total src st) as (c & f & r & _ & Hf).
    simpl. rewrite Hf.
    destruct (IH {| run_fs := f;
                    run_stdout := run_stdout st ++
                      match r with Ok _ => [] | Err e => [error_line src e] end;
                    run_progress := run_progress st ++
                      (if progress_cb then [(S (run_processed st), total)] else []);
                    run_counters := c;
                    run_processed := S (run_processed st) |})
      as (st' & Hloop & Hproc & Hprog).
    exists st'. split; [done|]. simpl in Hproc, Hprog. split; [lia|].
    rewrite Hprog. destruct progress_cb; [|by rewrite !app_nil_r].
    rewrite <- app_assoc. f_equal. simpl. rewrite Nat.add_1_r. f_equal.
    rewrite <- (fmap_S_seq 1), <- list_fmap_compose. apply list_fmap_ext.
    intros _ i _. simpl. f_equal. lia.
Qed.

(** Over a batch the counters evolve as the successive calls of the name
    builder on the files that reach it make them. *)
Lemma process_loop_counters (progress_cb : bool) (total : nat) (l : list Path)
    (st st' : Run) :
  process_loop lib config parent_name fmt ext progress_cb total l st = Some st' →
  run_counters st'
  = counters_after lib config parent_name (named_files lib l) (run_counters st).
Proof.
  revert st. induction l as [|src l IH]; intros st; cbn [process_loop].
  - by intros [= <-].
  - destruct (process_file_spec progress_cb total src st) as (c & f & r & Ha & Hf).
    rewrite Hf. intros Hloop. apply IH in Hloop. rewrite Hloop. cbn [run_counters].
    apply attempt_counters in Ha. rewrite Ha, (named_files_cons src l).
    unfold counters_after. by rewrite foldl_app.
Qed.

Lemma process_loop_printed (progress_cb : bool) (total : nat) (l : list Path)
    (st st' : Run) :
  process_loop lib config parent_name fmt ext progress_cb total l st = Some st' →
  ∃ errs : list (Path * exn),
    run_stdout st' = run_stdout st ++ ((λ x, error_line x.1 x.2) <$> errs) ∧
    errs.*1 `sublist_of` l.
Proof.
  revert st. induction l as [|src l IH]; intros st; cbn [process_loop].
  - intros [= <-]. exists []. by rewrite app_nil_r.
  - destruct (process_file_spec progress_cb total src st) as (c & f & r & _ & Hf).
    rewrite Hf. intros Hloop. apply IH in Hloop as (errs & Hout & Hsub).
    cbn [run_stdout] in Hout. destruct r as [|e].
    + exists errs. rewrite app_nil_r in Hout. split; [done|]. by apply sublist_cons.
    + exists ((src, e) :: errs). rewrite <- app_assoc in Hout. split; [done|].
      cbn [fmap list_fmap fst]. by apply sublist_skip.
Qed.

(** The loop around one position of the batch: the files before it have
    been handled, the file comes back from its [try] block, one line is
    printed for it exactly when an exception reached the [except] clause,
    and the files after it are handled in their turn. *)
Lemma process_loop_split (progress_cb : bool) (total : nat) (l1 : list Path) (src : Path)
    (l2 : list Path) (st st' : Run) :
  process_loop lib config parent_name fmt ext progress_cb total (l1 ++ src :: l2) st
    = Some st' →
  ∃ (st1 : Run) (c : gmap string nat) (f : gset string) (r : res ())
    (errs1 errs2 : list (Path * exn)),
    process_loop lib config parent_name fmt ext progress_cb total l1 st = Some st1 ∧
    attempt lib config parent_name fmt ext src (run_counters st1) (run_fs st1)
      = Some (c, f, r) ∧
    (r = Ok () ↔
     stages_succeed lib config parent_name fmt ext src (run_counters st1) (run_fs st1)) ∧
    (∀ e, image_open lib src = Err e → r = Err e) ∧
    run_stdout st1 = run_stdout st ++ ((λ x, error_line x.1 x.2) <$> errs1) ∧
    errs1.*1 `sublist_of` l1 ∧
    run_stdout st'
      = run_stdout st1 ++ match r with Ok _ => [] | Err e => [error_line src e] end
          ++ ((λ x, error_line x.1 x.2) <$> errs2) ∧
    errs2.*1 `sublist_of` l2.
Proof.
  rewrite process_loop_app.
  destruct (process_loop_spec progress_cb total l1 st) as (st1 & H1 & _).
  rewrite H1. cbn [mbind option_bind process_loop].
  destruct (process_file_spec progress_cb total src st1) as (c & f & r & Ha & Hf).
  rewrite Hf. intros H2.
  apply process_loop_printed in H1 as (errs1 & Hout1 & Hsub1).
  apply process_loop_printed in H2 as (errs2 & Hout2 & Hsub2).
  cbn [run_stdout] in Hout2.
  exists st1, c, f, r, errs1, errs2.
  split; [done|]. split; [done|]. split.
  { rewrite <- attempt_ok_iff. split.
    - intros ->. by eexists _, _.
    - intros (c' & f' & Ha'). congruence. }
  split.
  { intros e He. unfold attempt in Ha. rewrite He in Ha. by injection Ha as _ _ <-. }
  split; [done|]. split; [done|]. split; [|done].
  by rewrite Hout2, <- app_assoc.
Qed.

End Batch.

(** C3.  The counters are keyed by the day-key and incremented before use:
    a call of the name builder changes the entry of the day-key of its
    date, and no other, to one more than it was (one if it was absent), and
    that new value is the counter it uses.  So over the files named in one
    run, starting from the empty counters, the counters produced for the
    files of any one calendar day are 1, 2, 3, ... in processing order, and
    the name each file gets is the one made with that counter: the counter
    handed to the template, or put in the fallback name, for the file at
    position [i] is one more than the number of files of its calendar day
    before it.  In the batch loop the counters are those that the name
    builder calls on the files reaching it, in list order, have made. *)
Theorem per_day_counters (lib : Lib) (config : PhotoConfig) (parent_name fmt ext : string)
    (files : list (Path * datetime)) (d0 : datetime) :
  Forall (λ f, valid_date f.2) files → valid_date d0 →
  (∀ src counters dt,
     (_build_base_name lib config src parent_name counters dt).2
     = <[strftime_Ymd dt := S (default 0 (counters !! strftime_Ymd dt))]> counters) ∧
  (filter (λ x, same_day d0 x.1) (name_all lib config parent_name files ∅)).*2
  = seq 1 (length (filter (λ f, same_day d0 f.2) files)) ∧
  (∀ progress_cb total images_list st,
     ∃ st',
       process_loop lib config parent_name fmt ext progress_cb total images_list st
         = Some st' ∧
       run_counters st'
       = counters_after lib config parent_name (named_files lib images_list)
           (run_counters st)) ∧
  (∀ src counters dt,
     (_build_base_name lib config src parent_name counters dt).1
     = Ok (name_with_counter lib config parent_name src dt
             (S (default 0 (counters !! strftime_Ymd dt))))) ∧
  (∀ i src dt,
     files !! i = Some (src, dt) →
     build_all lib config parent_name files ∅ !! i
     = Some (Ok (name_with_counter lib config parent_name src dt
                   (S (length (filter (λ f, same_day dt f.2) (take i files))))))).
Proof.
  intros Hvalid Hd0. split; [|split; [|split; [|split]]].
  - intros src counters dt. apply build_base_name_counters.
  - by rewrite name_all_same_day.
  - intros progress_cb total images_list st.
    destruct (process_loop_spec lib config parent_name fmt ext progress_cb total
                images_list st) as (st' & Hloop & _).
    exists st'. split; [done|]. by eapply process_loop_counters.
  - intros src counters dt. apply build_base_name_name.
  - intros i src dt Hi.
    rewrite (build_all_counter lib config parent_name files ∅ i src dt Hi).
    rewrite lookup_empty. cbn [default]. rewrite Nat.add_0_l.
    rewrite same_key_count; [done| |].
    + apply Forall_take. done.
    + rewrite Forall_forall in Hvalid. apply (Hvalid (src, dt)).
      by eapply list_elem_of_lookup_2.
Qed.

Lemma per_day_counters_witness :
  (filter (λ x, same_day (Demo.at_day 15 0) x.1)
     (name_all Demo.lib Demo.config "in" Demo.files ∅)).*2 = [1; 2] ∧
  build_all Demo.lib Demo.config "in" Demo.files ∅ !! 2 = Some (Ok "in_20230115_002").
Proof.
  split.
  - apply (proj1 (proj2 (per_day_counters Demo.lib Demo.config "in" "JPEG" ".jpg"
                           Demo.files (Demo.at_day 15 0)
                           demo_files_valid
                           (at_day_valid 15 0 ltac:(lia))))).
  - apply (proj2 (proj2 (proj2 (proj2
             (per_day_counters Demo.lib Demo.config "in" "JPEG" ".jpg"
                Demo.files (Demo.at_day 15 0)
                demo_files_valid
                (at_day_valid 15 0 ltac:(lia))))))
           2 "in/b.jpg" (Demo.at_day 15 18) eq_refl).
Defined.

(** C1.  Once the destination directory is there and the list of files is
    known (given, or discovered), [process_images] returns the length of
    the list, whatever happened to each file; when a sink is given it
    receives exactly one call per file, (1, N), (2, N), ..., (N, N) in that
    order; and for the empty list 0 is returned, no counters are created,
    nothing is printed and the sink is not called. *)
Theorem process_images_count (lib : Lib) (config : PhotoConfig)
    (images : option (list Path)) (progress_cb : bool)
    (fs fs1 : gset string) (images_list : list Path) :
  mkdir lib fs (dest_dir config) = Ok fs1 →
  match images with
  | None => gather_images lib fs1 config
  | Some l => Ok l
  end = Ok images_list →
  ∃ r : Report,
    process_images lib config images progress_cb fs = Returned r ∧
    returned r = length images_list ∧
    progress_calls r
      = (if progress_cb
         then (λ i, (i, length images_list)) <$> seq 1 (length images_list)
         else []) ∧
    (images_list = [] →
       returned r = 0 ∧ final_counters r = None ∧ progress_calls r = [] ∧ printed r = []).
Proof.
  intros Hmkdir Hlist. unfold process_images. rewrite Hmkdir, Hlist.
  destruct images_list as [|src l].
  - simpl. eexists. split; [done|]. simpl. by destruct progress_cb.
  - change (length (src :: l) =? 0) with false. cbv iota.
    destruct (process_loop_spec lib config (path_name lib (source_dir config))
                (PyStr.upper (output_format config)) (output_ext (output_format config))
                progress_cb (length (src :: l)) (src :: l)
                {| run_fs := fs1; run_stdout := []; run_progress := [];
                   run_counters := ∅; run_processed := 0 |})
      as (st' & -> & Hproc & Hprog).
    eexists. split; [done|]. simpl in *. split; [done|]. split; [|done].
    rewrite Hprog. by destruct progress_cb.
Qed.

Lemma process_images_count_witness :
  ∃ r : Report,
    process_images Demo.lib Demo.config (Some ["in/a.jpg"; "in/zz.jpg"; "in/b.jpg"]) true ∅
      = Returned r ∧
    returned r = 3 ∧ progress_calls r = [(1, 3); (2, 3); (3, 3)].
Proof.
  destruct (process_images_count Demo.lib Demo.config
              (Some ["in/a.jpg"; "in/zz.jpg"; "in/b.jpg"]) true ∅ ({["out"]} ∪ ∅)
              ["in/a.jpg"; "in/zz.jpg"; "in/b.jpg"] eq_refl eq_refl)
    as (r & Hr & Hcount & Hcalls & _).
  exists r. split; [exact Hr|]. split; [exact Hcount|exact Hcalls].
Defined.

(** C2.  At every position of the batch, whatever the steps of the file's
    pipeline do, the file comes back to the loop: no exception reached the
    boundary exactly when every step went through, and otherwise the
    exception is caught and one line with the source path and the message
    is printed; in both cases the file is counted and the loop goes on with
    the files that follow, to the end of the list.  [process_images] always
    returns or raises, and an exception that leaves it comes from creating
    the destination directory or from discovery, never from a file.  Once
    the destination directory is there and the list is known,
    [process_images] returns the length of the list, and at every position
    of the list it has run the file of that position after the files
    before it: what it printed is the lines of the files before, then the
    line of the file if an exception reached the boundary (the exception of
    [Image.open] when that call raised) and nothing if every step went
    through, then the lines of the files after. *)
Theorem per_file_errors_isolated (lib : Lib) (config : PhotoConfig) :
  (∀ (parent_name fmt ext : string) (progress_cb : bool) (total : nat)
     (l1 : list Path) (src : Path) (l2 : list Path) (st : Run),
     ∃ (st1 st2 st3 : Run) (r : res ()),
       process_loop lib config parent_name fmt ext progress_cb total l1 st = Some st1 ∧
       attempt lib config parent_name fmt ext src (run_counters st1) (run_fs st1)
         = Some (run_counters st2, run_fs st2, r) ∧
       (r = Ok () ↔
        stages_succeed lib config parent_name fmt ext src (run_counters st1) (run_fs st1)) ∧
       process_file lib config parent_name fmt ext progress_cb total src st1 = Some st2 ∧
       run_stdout st2
         = run_stdout st1 ++ match r with Ok _ => [] | Err e => [error_line src e] end ∧
       run_processed st2 = S (run_processed st1) ∧
       process_loop lib config parent_name fmt ext progress_cb total l2 st2 = Some st3 ∧
       process_loop lib config parent_name fmt ext progress_cb total (l1 ++ src :: l2) st
         = Some st3 ∧
       run_processed st3 = run_processed st + length (l1 ++ src :: l2)) ∧
  (∀ (images : option (list Path)) (progress_cb : bool) (fs : gset string),
     process_images lib config images progress_cb fs ≠ Diverged ∧
     ∀ e, process_images lib config images progress_cb fs = Raised e →
          mkdir lib fs (dest_dir config) = Err e ∨
          ∃ fs1, mkdir lib fs (dest_dir config) = Ok fs1 ∧ images = None ∧
                 gather_images lib fs1 config = Err e) ∧
  (∀ (images : option (list Path)) (progress_cb : bool) (fs fs1 : gset string)
     (images_list : list Path),
     mkdir lib fs (dest_dir config) = Ok fs1 →
     match images with
     | None => gather_images lib fs1 config
     | Some l => Ok l
     end = Ok images_list →
     ∃ report : Report,
       process_images lib config images progress_cb fs = Returned report ∧
       returned report = length images_list ∧
       ∀ (l1 : list Path) (src : Path) (l2 : list Path),
         images_list = l1 ++ src :: l2 →
         ∃ (st1 : Run) (c : gmap string nat) (f : gset string) (r : res ())
           (errs1 errs2 : list (Path * exn)),
           process_loop lib config (path_name lib (source_dir config))
             (PyStr.upper (output_format config)) (output_ext (output_format config))
             progress_cb (length images_list) l1
             {| run_fs := fs1; run_stdout := []; run_progress := [];
                run_counters := ∅; run_processed := 0 |} = Some st1 ∧
           attempt lib config (path_name lib (source_dir config))
             (PyStr.upper (output_format config)) (output_ext (output_format config))
             src (run_counters st1) (run_fs st1) = Some (c, f, r) ∧
           (r = Ok () ↔
            stages_succeed lib config (path_name lib (source_dir config))
              (PyStr.upper (output_format config)) (output_ext (output_format config))
              src (run_counters st1) (run_fs st1)) ∧
           (∀ e, image_open lib src = Err e → r = Err e) ∧
           errs1.*1 `sublist_of` l1 ∧
           errs2.*1 `sublist_of` l2 ∧
           printed report
             = ((λ x, error_line x.1 x.2) <$> errs1)
                 ++ match r with Ok _ => [] | Err e => [error_line src e] end
                 ++ ((λ x, error_line x.1 x.2) <$> errs2)).
Proof.
  split; [|split].
  - intros parent_name fmt ext progress_cb total l1 src l2 st.
    destruct (process_loop_spec lib config parent_name fmt ext progress_cb total l1 st)
      as (st1 & H1 & Hp1 & _).
    destruct (process_file_spec lib config parent_name fmt ext progress_cb total src st1)
      as (c & f & r & Ha & Hf).
    set (st2 := {| run_fs := f;
                   run_stdout := run_stdout st1 ++
                     match r with Ok _ => [] | Err e => [error_line src e] end;
                   run_progress := run_progress st1 ++
                     (if progress_cb then [(S (run_processed st1), total)] else []);
                   run_counters := c;
                   run_processed := S (run_processed st1) |}) in *.
    destruct (process_loop_spec lib config parent_name fmt ext progress_cb total l2 st2)
      as (st3 & H3 & Hp3 & _).
    exists st1, st2, st3, r. split; [done|]. split; [done|]. split.
    { rewrite <- attempt_ok_iff. split.
      - intros ->. by eexists _, _.
      - intros (c' & f' & Ha'). congruence. }
    split; [done|]. split; [done|]. split; [done|]. split; [done|]. split.
    + rewrite process_loop_app, H1. simpl. by rewrite Hf.
    + rewrite Hp3. simpl. rewrite Hp1, length_app. simpl. lia.
  - intros images progress_cb fs. unfold process_images.
    destruct (mkdir lib fs (dest_dir config)) as [fs1|e0] eqn:Hmkdir.
    2:{ split; [done|]. intros e [= ->]. by left. }
    destruct images as [l|].
    + destruct (length l =? 0); [by split|].
      destruct (process_loop_spec lib config (path_name lib (source_dir config))
                  (PyStr.upper (output_format config)) (output_ext (output_format config))
                  progress_cb (length l) l
                  {| run_fs := fs1; run_stdout := []; run_progress := [];
                     run_counters := ∅; run_processed := 0 |}) as (st' & -> & _).
      by split.
    + destruct (gather_images lib fs1 config) as [l|e0] eqn:Hgather.
      2:{ split; [done|]. intros e [= ->]. right. by exists fs1. }
      destruct (length l =? 0); [by split|].
      destruct (process_loop_spec lib config (path_name lib (source_dir config))
                  (PyStr.upper (output_format config)) (output_ext (output_format config))
                  progress_cb (length l) l
                  {| run_fs := fs1; run_stdout := []; run_progress := [];
                     run_counters := ∅; run_processed := 0 |}) as (st' & -> & _).
      by split.
  - intros images progress_cb fs fs1 images_list Hmkdir Hlist.
    unfold process_images. rewrite Hmkdir, Hlist. cbv zeta.
    destruct images_list as [|src0 rest].
    { eexists. split; [done|]. split; [done|].
      intros l1 src l2 Hl. by destruct l1. }
    change (length (src0 :: rest) =? 0) with false. cbv iota.
    destruct (process_loop_spec lib config (path_name lib (source_dir config))
                (PyStr.upper (output_format config)) (output_ext (output_format config))
                progress_cb (length (src0 :: rest)) (src0 :: rest)
                {| run_fs := fs1; run_stdout := []; run_progress := [];
                   run_counters := ∅; run_processed := 0 |}) as (st' & Hloop & Hproc & _).
    rewrite Hloop. eexists. split; [done|]. split; [exact Hproc|].
    intros l1 src l2 Hl. rewrite Hl in Hloop.
    apply process_loop_split in Hloop
      as (st1 & c & f & r & errs1 & errs2 & H1 & Ha & Hiff & Hopen & Hout1 & Hsub1
          & Hout & Hsub2).
    exists st1, c, f, r, errs1, errs2. rewrite <- Hl in H1.
    split; [done|]. split; [done|]. split; [done|]. split; [done|].
    split; [done|]. split; [done|].
    cbn [printed]. by rewrite Hout, Hout1.
Qed.

Lemma per_file_errors_isolated_witness :
  (mkdir Demo.lib ∅ (dest_dir Demo.unwritable_config) = Err (Exception "Permission denied") ∨
   ∃ fs1, mkdir Demo.lib ∅ (dest_dir Demo.unwritable_config) = Ok fs1 ∧
          Some ["in/a.jpg"] = None ∧
          gather_images Demo.lib fs1 Demo.unwritable_config
            = Err (Exception "Permission denied")) ∧
  ∃ (report : Report) (errs1 errs2 : list (Path * exn)),
    process_images Demo.lib Demo.config (Some ["in/a.jpg"; "in/zz.jpg"; "in/b.jpg"]) true ∅
      = Returned report ∧
    returned report = 3 ∧
    errs1.*1 `sublist_of` ["in/a.jpg"] ∧
    errs2.*1 `sublist_of` ["in/b.jpg"] ∧
    printed report
      = ((λ x, error_line x.1 x.2) <$> errs1)
          ++ [error_line "in/zz.jpg" (Exception "cannot identify image file 'in/zz.jpg'")]
          ++ ((λ x, error_line x.1 x.2) <$> errs2).
Proof.
  split.
  - apply (proj1 (proj2 (per_file_errors_isolated Demo.lib Demo.unwritable_config))
             (Some ["in/a.jpg"]) true ∅).
    reflexivity.
  - destruct (proj2 (proj2 (per_file_errors_isolated Demo.lib Demo.config))
                (Some ["in/a.jpg"; "in/zz.jpg"; "in/b.jpg"]) true ∅ ({["out"]} ∪ ∅)
                ["in/a.jpg"; "in/zz.jpg"; "in/b.jpg"] eq_refl eq_refl)
      as (report & Hrun & Hcount & Hpos).
    destruct (Hpos ["in/a.jpg"] "in/zz.jpg" ["in/b.jpg"] eq_refl)
      as (st1 & c & f & r & errs1 & errs2 & _ & _ & _ & Hopen & Hsub1 & Hsub2 & Hout).
    exists report, errs1, errs2.
    split; [exact Hrun|]. split; [exact Hcount|].
    split; [exact Hsub1|]. split; [exact Hsub2|].
    rewrite Hout.
    rewrite (Hopen (Exception "cannot identify image file 'in/zz.jpg'") eq_refl).
    reflexivity.
Defined.

(** C10.  A file whose opening or orientation correction raises leaves the
    counters (and the file system) as they were, so it takes no number from
    the files named after it; it is still counted, one line is printed for
    it, and the sink, when there is one, still receives its call. *)
Theorem failed_open_keeps_counters (lib : Lib) (config : PhotoConfig)
    (parent_name fmt ext : string) (progress_cb : bool) (total : nat)
    (src : Path) (st : Run) (e : exn) :
  image_open lib src = Err e ∨
  (∃ im0, image_open lib src = Ok im0 ∧ exif_transpose lib im0 = Err e) →
  ∃ (st' : Run) (e' : exn),
    process_file lib config parent_name fmt ext progress_cb total src st = Some st' ∧
    run_counters st' = run_counters st ∧
    run_fs st' = run_fs st ∧
    run_processed st' = run_processed st + 1 ∧
    run_progress st'
      = run_progress st ++
        (if progress_cb then [(run_processed st + 1, total)] else []) ∧
    run_stdout st' = run_stdout st ++ [error_line src e'] ∧
    (∀ src2 dt,
       _build_base_name lib config src2 parent_name (run_counters st') dt
       = _build_base_name lib config src2 parent_name (run_counters st) dt).
Proof.
  intros Hfail. unfold process_file, attempt.
  destruct Hfail as [->|(im0 & -> & Htr)].
  - eexists _, e. split; [done|]. simpl.
    destruct progress_cb; by rewrite ?app_nil_r.
  - unfold pipeline. rewrite Htr. simpl.
    destruct (close lib im0) as [[]|e'].
    + eexists _, e. split; [done|]. simpl. destruct progress_cb; by rewrite ?app_nil_r.
    + eexists _, e'. split; [done|]. simpl. destruct progress_cb; by rewrite ?app_nil_r.
Qed.

Lemma failed_open_keeps_counters_witness :
  ∃ st' : Run,
    process_file Demo.lib Demo.config "in" "JPEG" ".jpg" true 3 "in/zz.jpg"
      {| run_fs := {["out"]}; run_stdout := []; run_progress := [(1, 3)];
         run_counters := {["20230115" := 1]}; run_processed := 1 |} = Some st' ∧
    run_counters st' = {["20230115" := 1]} ∧
    run_processed st' = 2 ∧
    run_progress st' = [(1, 3); (2, 3)].
Proof.
  destruct (failed_open_keeps_counters Demo.lib Demo.config "in" "JPEG" ".jpg" true 3
              "in/zz.jpg"
              {| run_fs := {["out"]}; run_stdout := []; run_progress := [(1, 3)];
                 run_counters := {["20230115" := 1]}; run_processed := 1 |}
              (Exception "cannot identify image file 'in/zz.jpg'")
              (or_introl eq_refl))
    as (st' & e' & Hf & Hc & _ & Hp & Hcalls & _).
  exists st'. split; [exact Hf|]. split; [exact Hc|]. split; [exact Hp|exact Hcalls].
Defined.

(** * What the batch asks of [Image.save] *)

Section SaveCalls.

Context (lib : Lib) (config : PhotoConfig).
Context (save' : gset string → Image → Path → save_kwargs → res unit * gset string).

(** [P] holds of every call of [save] the pipeline can make: the path was
    just allocated on the file system handed over, and the keyword
    arguments are those built for the image. *)
Context (P : gset string → Image → Path → save_kwargs → Prop).
Context (fmt ext : string).
Hypothesis call_sites : ∀ fs im base_name p,
  unique_path fs (dest_dir config) base_name ext = Some p →
  P fs im p (make_save_kwargs config fmt im).
Hypothesis agree : ∀ fs im p kw, P fs im p kw → save' fs im p kw = save lib fs im p kw.

Lemma pipeline_save_agree (parent_name : string) (src : Path) (im0 : Image)
    (counters : gmap string nat) (fs : gset string) :
  pipeline (with_save save' lib) config parent_name fmt ext src im0 counters fs
  = pipeline lib config parent_name fmt ext src im0 counters fs.
Proof.
  unfold pipeline.
  change (exif_transpose (with_save save' lib)) with (exif_transpose lib).
  destruct (exif_transpose lib im0) as [im1|]; [|done].
  change (exif_datetime (with_save save' lib) im1 src) with (exif_datetime lib im1 src).
  destruct (exif_datetime lib im1 src) as [dt|]; [|done].
  change (_build_base_name (with_save save' lib) config src parent_name counters dt)
    with (_build_base_name lib config src parent_name counters dt).
  destruct (_build_base_name lib config src parent_name counters dt) as [[base|] c1];
    [|done].
  change (ensure_rgb (with_save save' lib) im1) with (ensure_rgb lib im1).
  destruct (ensure_rgb lib im1) as [im2|]; [|done].
  change (thumbnail (with_save save' lib)) with (thumbnail lib).
  destruct (thumbnail lib im2 _) as [im3|]; [|done].
  destruct (unique_path fs (dest_dir config) base ext) as [p|] eqn:Hp; [|done].
  change (save (with_save save' lib)) with save'.
  by rewrite (agree _ _ _ _ (call_sites fs im3 base p Hp)).
Qed.

Lemma process_loop_save_agree (parent_name : string) (progress_cb : bool) (total : nat)
    (l : list Path) (st : Run) :
  process_loop (with_save save' lib) config parent_name fmt ext progress_cb total l st
  = process_loop lib config parent_name fmt ext progress_cb total l st.
Proof.
  revert st. induction l as [|src l IH]; intros st; [done|].
  cbn [process_loop].
  assert (Hfile :
    process_file (with_save save' lib) config parent_name fmt ext progress_cb total src st
    = process_file lib config parent_name fmt ext progress_cb total src st).
  { unfold process_file, attempt.
    change (image_open (with_save save' lib)) with (image_open lib).
    change (close (with_save save' lib)) with (close lib).
    destruct (image_open lib src) as [im0|]; [|done].
    by rewrite pipeline_save_agree. }
  rewrite Hfile. destruct (process_file lib _ _ _ _ _ _ _ _) as [st'|]; [|done].
  apply IH.
Qed.

End SaveCalls.

(** [process_images] behaves the same with any two [save] that agree on the
    calls satisfying [P], when every call it can make satisfies [P]. *)
Lemma process_images_save_agree (lib : Lib) (config : PhotoConfig)
    (save' : gset string → Image → Path → save_kwargs → res unit * gset string)
    (P : gset string → Image → Path → save_kwargs → Prop) :
  (∀ fs im base_name p,
     unique_path fs (dest_dir config) base_name (output_ext (output_format config)) = Some p →
     P fs im p (make_save_kwargs config (PyStr.upper (output_format config)) im)) →
  (∀ fs im p kw, P fs im p kw → save' fs im p kw = save lib fs im p kw) →
  ∀ images progress_cb fs,
    process_images (with_save save' lib) config images progress_cb fs
    = process_images lib config images progress_cb fs.
Proof.
  intros Hsites Hagree images progress_cb fs. unfold process_images.
  change (mkdir (with_save save' lib)) with (mkdir lib).
  destruct (mkdir lib fs (dest_dir config)) as [fs1|]; [|done].
  change (gather_images (with_save save' lib) fs1 config) with (gather_images lib fs1 config).
  destruct (match images with None => gather_images lib fs1 config | Some l => Ok l end)
    as [images_list|]; [|done].
  destruct (length images_list =? 0); [done|].
  change (path_name (with_save save' lib)) with (path_name lib).
  by rewrite (process_loop_save_agree lib config save' P _ _ Hsites Hagree).
Qed.

Lemma unique_path_fresh (fs : gset string) (folder base_name ext p : string) :
  unique_path fs folder base_name ext = Some p → p ∉ fs.
Proof.
  destruct (least_unused folder base_name ext fs) as (j & _ & Hout & Hin).
  rewrite (unique_path_finds folder base_name ext fs j Hout Hin). by intros [= <-].
Qed.

(** X3.  [process_images] never asks [save] to write to a path that
    exists at that moment: how [save] behaves on existing paths makes no
    difference to the run. *)
Theorem process_images_never_overwrites (lib : Lib) (config : PhotoConfig)
    (save' : gset string → Image → Path → save_kwargs → res unit * gset string) :
  (∀ fs im p kw, p ∉ fs → save' fs im p kw = save lib fs im p kw) →
  ∀ images progress_cb fs,
    process_images (with_save save' lib) config images progress_cb fs
    = process_images lib config images progress_cb fs.
Proof.
  intros Hagree.
  apply (process_images_save_agree lib config save' (λ fs _ p _, p ∉ fs)); [|done].
  intros fs im base_name p Hp. by eapply unique_path_fresh.
Qed.

Lemma process_images_never_overwrites_witness :
  process_images (with_save (strict_save Demo.lib) Demo.lib) Demo.config
    (Some ["in/a.jpg"; "in/b.jpg"]) true {["out/in_20230115_001.jpg"]}
  = process_images Demo.lib Demo.config
      (Some ["in/a.jpg"; "in/b.jpg"]) true {["out/in_20230115_001.jpg"]}.
Proof.
  apply (process_images_never_overwrites Demo.lib Demo.config (strict_save Demo.lib)).
  intros fs im p kw Hp. unfold strict_save.
  rewrite (bool_decide_eq_false_2 _ Hp). reflexivity.
Defined.

Lemma make_save_kwargs_metadata (config : PhotoConfig) (fmt : string) (im : Image) :
  metadata_carried config im (make_save_kwargs config fmt im).
Proof.
  assert (Htruthy : ∀ o b, truthy o = Some b ↔ o = Some b ∧ b ≠ "").
  { intros [[|c s]|] b; simpl; split; try done; try by intros [[=] _].
    - intros [[= <-] H]. done.
    - by intros [= <-].
    - by intros [[= <-] _]. }
  unfold metadata_carried, make_save_kwargs. simpl.
  destruct (strip_metadata config); (split; [|split; [|split]]); try done.
  - intros b. apply Htruthy.
  - intros b. apply Htruthy.
  - intros _. split; intros b Hb Hne; by apply Htruthy.
Qed.

(** X4.  Metadata carry-through: every call of [save] gets as EXIF and ICC
    blocks nothing when [strip_metadata] is set, and otherwise exactly the
    non-empty blocks of the image itself; how [save] behaves on any other
    keyword arguments makes no difference to the run. *)
Theorem process_images_metadata (lib : Lib) (config : PhotoConfig)
    (save' : gset string → Image → Path → save_kwargs → res unit * gset string) :
  (∀ fs im p kw, metadata_carried config im kw → save' fs im p kw = save lib fs im p kw) →
  ∀ images progress_cb fs,
    process_images (with_save save' lib) config images progress_cb fs
    = process_images lib config images progress_cb fs.
Proof.
  intros Hagree.
  apply (process_images_save_agree lib config save'
           (λ _ im _ kw, metadata_carried config im kw)); [|done].
  intros fs im base_name p _. apply make_save_kwargs_metadata.
Qed.

Lemma process_images_metadata_witness :
  process_images (with_save (bare_save Demo.lib) Demo.lib) stripping_config
    (Some ["in/a.jpg"; "in/c.png"]) false ∅
  = process_images Demo.lib stripping_config (Some ["in/a.jpg"; "in/c.png"]) false ∅.
Proof.
  apply (process_images_metadata Demo.lib stripping_config (bare_save Demo.lib)).
  intros fs im p kw (Hstrip & _). destruct (Hstrip eq_refl) as [Hexif Hicc].
  unfold bare_save. rewrite Hexif, Hicc. reflexivity.
Defined.

(** X5.  Encoder settings: every call of [save] names the upper-cased
    output format, the configured quality and optimised encoding, and asks
    for 4:2:0 chroma subsampling exactly when the format is JPEG. *)
Theorem process_images_encoder_settings (lib : Lib) (config : PhotoConfig)
    (save' : gset string → Image → Path → save_kwargs → res unit * gset string) :
  (∀ fs im p kw, encoder_settings config kw → save' fs im p kw = save lib fs im p kw) →
  ∀ images progress_cb fs,
    process_images (with_save save' lib) config images progress_cb fs
    = process_images lib config images progress_cb fs.
Proof.
  intros Hagree.
  apply (process_images_save_agree lib config save'
           (λ _ _ _ kw, encoder_settings config kw)); [|done].
  intros fs im base_name p _. by unfold encoder_settings, make_save_kwargs.
Qed.

Lemma process_images_encoder_settings_witness :
  process_images (with_save (picky_save Demo.lib) Demo.lib) stripping_config
    (Some ["in/a.jpg"; "in/c.png"]) false ∅
  = process_images Demo.lib stripping_config (Some ["in/a.jpg"; "in/c.png"]) false ∅.
Proof.
  apply (process_images_encoder_settings Demo.lib stripping_config (picky_save Demo.lib)).
  intros fs im p kw (Hfmt & _ & Hopt & Hsub).
  unfold picky_save. rewrite Hopt, Hfmt, Hsub. reflexivity.
Defined.

(** * Allocating several paths for one base name *)

Section AllocateAll.

Variables (folder base_name ext : string).

Lemma allocate_all_from (n j : nat) (fs : gset string) :
  (∀ k, k < j → nth_candidate folder base_name ext k ∈ fs) →
  (∀ k, j ≤ k < j + n → nth_candidate folder base_name ext k ∉ fs) →
  allocate_all folder base_name ext n fs
  = nth_candidate folder base_name ext <$> seq j n.
Proof.
  revert j fs. induction n as [|n IH]; intros j fs Hin Hout; [done|].
  cbn [allocate_all seq fmap list_fmap].
  rewrite (unique_path_finds folder base_name ext fs j) by (try apply Hout; try done; lia).
  f_equal. apply IH.
  - intros k Hk. destruct (decide (k = j)) as [->|].
    { apply elem_of_union_l. by apply elem_of_singleton. }
    apply elem_of_union_r, Hin. lia.
  - intros k Hk Hel. apply elem_of_union in Hel as [Hel|Hel].
    + apply elem_of_singleton, nth_candidate_inj in Hel. lia.
    + apply (Hout k); [lia|done].
Qed.

Lemma allocate_all_fresh_general (n : nat) (fs : gset string) :
  length (allocate_all folder base_name ext n fs) = n ∧
  NoDup (allocate_all folder base_name ext n fs) ∧
  ∀ p, p ∈ allocate_all folder base_name ext n fs →
       (p ∉ fs) ∧ ∃ k, p = nth_candidate folder base_name ext k.
Proof.
  revert fs. induction n as [|n IH]; intros fs.
  - split; [done|]. split; [constructor|]. intros p Hp. by apply elem_of_nil in Hp.
  - cbn [allocate_all].
    destruct (least_unused folder base_name ext fs) as (j & _ & Hout & Hin).
    rewrite (unique_path_finds folder base_name ext fs j Hout Hin).
    destruct (IH ({[nth_candidate folder base_name ext j]} ∪ fs)) as (Hlen & Hnd & Hall).
    split; [simpl; by rewrite Hlen|]. split.
    + constructor; [|done]. intros Hel. apply Hall in Hel as [Hnot _].
      apply Hnot, elem_of_union_l. by apply elem_of_singleton.
    + intros p Hp. apply elem_of_cons in Hp as [->|Hp]; [eauto|].
      apply Hall in Hp as [Hnot Hk]. split; [|done].
      intros Hfs. by apply Hnot, elem_of_union_r.
Qed.

End AllocateAll.

(** X9.  Allocating a path and creating it, [n] times over for the same
    base name, gives [n] pairwise distinct paths, none of which existed
    before, each one a candidate of the sequence base+ext, base_001+ext, ... *)
Theorem allocate_all_distinct (folder base_name ext : string) (n : nat) (fs : gset string) :
  length (allocate_all folder base_name ext n fs) = n ∧
  NoDup (allocate_all folder base_name ext n fs) ∧
  ∀ p, p ∈ allocate_all folder base_name ext n fs →
       (p ∉ fs) ∧ ∃ k, p = nth_candidate folder base_name ext k.
Proof. apply allocate_all_fresh_general. Qed.

(** X10.  When none of the first [n] candidates exists, the [n] paths
    allocated are base+ext, base_001+ext, ..., in that order. *)
Theorem allocate_all_in_order (folder base_name ext : string) (n : nat) (fs : gset string) :
  (∀ k, k < n → nth_candidate folder base_name ext k ∉ fs) →
  allocate_all folder base_name ext n fs
  = nth_candidate folder base_name ext <$> seq 0 n.
Proof.
  intros Hfree. apply allocate_all_from.
  - intros k Hk. lia.
  - intros k Hk. apply Hfree. lia.
Qed.

Lemma allocate_all_in_order_witness :
  allocate_all "out" "a" ".jpg" 3 {["out/b.jpg"]}
  = ["out/a.jpg"; "out/a_001.jpg"; "out/a_002.jpg"].
Proof.
  apply (allocate_all_in_order "out" "a" ".jpg" 3 {["out/b.jpg"]}).
  intros k Hk Hel. apply elem_of_singleton in Hel.
  destruct k as [|[|[|k]]]; [discriminate Hel..|lia].
Defined.

(** * The EXIF date normalisation *)

Lemma replace_char_0 (old new : ascii) (s : string) : PyStr.replace_char old new 0 s = s.
Proof. by destruct s. Qed.

Lemma replace_char_skip (old new : ascii) (n : nat) (a b : string) :
  has_char old a = false →
  PyStr.replace_char old new (S n) (a +:+ String old b)
  = a +:+ String new (PyStr.replace_char old new n b).
Proof.
  induction a as [|x a IH]; intros Ha.
  - rewrite !append_nil. simpl. by rewrite Ascii.eqb_refl.
  - simpl in Ha. apply orb_false_iff in Ha as [Hx Ha].
    rewrite !append_cons. simpl. rewrite Hx. by rewrite IH.
Qed.

(** X11.  The date normalisation of the timestamp resolver turns the two
    colons of an EXIF date into dashes and leaves everything after them as
    it is: [Y:M:rest] becomes [Y-M-rest] when [Y] and [M] hold no colon. *)
Theorem exif_colons_to_dashes (y m rest : string) :
  has_char ":" y = false → has_char ":" m = false →
  PyStr.replace_char ":" "-" 2 (y +:+ ":" +:+ m +:+ ":" +:+ rest)
  = y +:+ "-" +:+ m +:+ "-" +:+ rest.
Proof.
  intros Hy Hm.
  change (y +:+ ":" +:+ m +:+ ":" +:+ rest)
    with (y +:+ String ":" (m +:+ String ":" rest)).
  rewrite replace_char_skip by done. rewrite replace_char_skip by done.
  by rewrite replace_char_0.
Qed.

Lemma exif_colons_to_dashes_witness :
  PyStr.replace_char ":" "-" 2 "2023:01:15 10:30:00" = "2023-01-15 10:30:00".
Proof.
  apply (exif_colons_to_dashes "2023" "01" "15 10:30:00"); reflexivity.
Defined.

(** * Colour mode and extension, again *)

(** X12.  [ensure_rgb] is idempotent: an image it returns is in none of
    the four modes it converts, and is returned as it is by a second call. *)
Theorem ensure_rgb_idempotent (lib : Lib) (img img' : Image) :
  ensure_rgb lib img = Ok img' →
  (mode img' ∉ ["RGBA"; "LA"; "P"; "CMYK"]) ∧ ensure_rgb lib img' = Ok img'.
Proof.
  unfold ensure_rgb. destruct (bool_decide (mode img ∈ _)) eqn:Hm.
  - unfold convert. destruct (convert_error lib img "RGB"); [done|].
    intros [= <-]. simpl. split; [|done].
    rewrite !elem_of_cons, elem_of_nil. intros H. decompose [or] H; done.
  - intros [= <-]. apply bool_decide_eq_false in Hm. split; [done|].
    by rewrite bool_decide_eq_false_2.
Qed.

Lemma ensure_rgb_idempotent_witness :
  ensure_rgb Demo.lib (with_mode "RGB" (Demo.plain "RGBA"))
  = Ok (with_mode "RGB" (Demo.plain "RGBA")).
Proof.
  apply (ensure_rgb_idempotent Demo.lib (Demo.plain "RGBA")). reflexivity.
Defined.

Lemma upper_upper_char (c : ascii) :
  PyStr.upper_char (PyStr.upper_char c) = PyStr.upper_char c.
Proof. by destruct c as [[] [] [] [] [] [] [] []]. Qed.

Lemma lower_lower_char (c : ascii) :
  PyStr.lower_char (PyStr.lower_char c) = PyStr.lower_char c.
Proof. by destruct c as [[] [] [] [] [] [] [] []]. Qed.

Lemma lower_lower (s : string) : PyStr.lower (PyStr.lower s) = PyStr.lower s.
Proof.
  induction s as [|c s IH]; simpl; [done|]. by rewrite lower_lower_char, IH.
Qed.

(** X13.  The output extension ignores the case of the format name, and is
    always a dot followed by a string without upper-case letters. *)
Theorem output_ext_case_insensitive (f g : string) :
  PyStr.upper f = PyStr.upper g →
  output_ext f = output_ext g ∧
  ∃ rest, output_ext f = "." +:+ rest ∧ PyStr.lower rest = rest.
Proof.
  intros Hfg. unfold output_ext, output_ext_of. rewrite Hfg. split; [done|].
  destruct (String.eqb (PyStr.upper g) "JPEG").
  - by exists "jpg".
  - exists (PyStr.lower (PyStr.upper g)). split; [done|]. apply lower_lower.
Qed.

Lemma output_ext_case_insensitive_witness : output_ext "WebP" = output_ext "WEBP".
Proof. apply (output_ext_case_insensitive "WebP" "WEBP"). reflexivity. Defined.

(** * Names of a whole run *)

Section RunNames.

Context (lib : Lib) (config : PhotoConfig) (parent_name : string).

Lemma strftime_Ymd_length (dt : datetime) :
  valid_date dt → String.length (strftime_Ymd dt) = 8.
Proof.
  intros (Hy & Hm & Hd). unfold strftime_Ymd.
  rewrite !length_append, zfill_length_4, !zfill_length_2 by lia. done.
Qed.

Lemma fallback_inj (k1 k2 : string) (n1 n2 : nat) :
  String.length k1 = String.length k2 →
  parent_name +:+ "_" +:+ k1 +:+ "_" +:+ PyStr.zfill 3 n1
  = parent_name +:+ "_" +:+ k2 +:+ "_" +:+ PyStr.zfill 3 n2 →
  k1 = k2 ∧ n1 = n2.
Proof.
  intros Hlen H. do 2 apply append_cancel_l in H.
  apply append_inj_length in H as [-> H]; [|done].
  apply append_cancel_l, zfill_inj in H. done.
Qed.

Lemma name_all_dates (files : list (Path * datetime)) (counters : gmap string nat) :
  (name_all lib config parent_name files counters).*1 = files.*2.
Proof.
  revert counters. induction files as [|[src dt] files IH]; intros counters; [done|].
  cbn [name_all fmap list_fmap fst snd]. by rewrite IH.
Qed.

(** Every counter produced is above the entry the counters had for its
    day-key, and no day-key gets the same counter twice. *)
Lemma name_all_keyed (files : list (Path * datetime)) (counters : gmap string nat) :
  NoDup ((λ x, (strftime_Ymd x.1, x.2)) <$> name_all lib config parent_name files counters) ∧
  ∀ x, x ∈ name_all lib config parent_name files counters →
       default 0 (counters !! strftime_Ymd x.1) < x.2.
Proof.
  revert counters. induction files as [|[src dt] files IH]; intros counters.
  - split; [constructor|]. intros x Hx. by apply elem_of_nil in Hx.
  - cbn [name_all]. rewrite build_base_name_counter, build_base_name_counters.
    set (d := default 0 (counters !! strftime_Ymd dt)).
    destruct (IH (<[strftime_Ymd dt := S d]> counters)) as [Hnd Hlt].
    assert (Htail : ∀ x,
      x ∈ name_all lib config parent_name files (<[strftime_Ymd dt := S d]> counters) →
      default 0 (counters !! strftime_Ymd x.1) < x.2 ∧
      (strftime_Ymd x.1, x.2) ≠ (strftime_Ymd dt, S d)).
    { intros x Hx. apply Hlt in Hx.
      destruct (decide (strftime_Ymd dt = strftime_Ymd x.1)) as [Heq|Hne].
      - rewrite <- Heq, lookup_insert_eq in Hx. simpl in Hx.
        split; [rewrite <- Heq; fold d; lia|]. intros [= _ Hn]. lia.
      - rewrite lookup_insert_ne in Hx by done. split; [done|].
        intros [= Hk _]. by apply Hne. }
    split.
    + cbn [fmap list_fmap fst snd]. constructor; [|done].
      intros Hel. apply list_elem_of_fmap in Hel as (x & Hx & Hel).
      apply Htail in Hel as [_ Hne]. by apply Hne.
    + intros x Hx. apply elem_of_cons in Hx as [->|Hx]; [simpl; fold d; lia|].
      by apply Htail.
Qed.

Hypothesis rendering_fails : ∀ ctx,
  str_format lib (rename_pattern config) ctx = Ok "" ∨
  ∃ e, str_format lib (rename_pattern config) ctx = Err e.

Lemma build_all_fallback (files : list (Path * datetime)) (counters : gmap string nat) :
  build_all lib config parent_name files counters
  = (λ x, Ok (parent_name +:+ "_" +:+ strftime_Ymd x.1 +:+ "_" +:+ PyStr.zfill 3 x.2))
    <$> name_all lib config parent_name files counters.
Proof.
  revert counters. induction files as [|[src dt] files IH]; intros counters; [done|].
  cbn [build_all name_all fmap list_fmap fst snd].
  rewrite build_base_name_counter.
  pose proof (build_base_name_result lib config parent_name src counters dt) as Hres.
  cbv zeta in Hres.
  destruct (_build_base_name lib config src parent_name counters dt) as [named c1].
  simpl in Hres |- *. rewrite IH. f_equal. rewrite Hres.
  by destruct (rendering_fails
                 {| ctx_folder := parent_name; ctx_date := strftime_Ymd dt;
                    ctx_counter := S (default 0 (counters !! strftime_Ymd dt));
                    ctx_orig := path_stem lib src |}) as [->|[e ->]].
Qed.

Lemma fallback_names_NoDup (files : list (Path * datetime)) (counters : gmap string nat) :
  Forall (λ f, valid_date f.2) files →
  NoDup ((λ x, parent_name +:+ "_" +:+ strftime_Ymd x.1 +:+ "_" +:+ PyStr.zfill 3 x.2)
           <$> name_all lib config parent_name files counters).
Proof.
  intros Hvalid.
  assert (Hdates : ∀ x, x ∈ name_all lib config parent_name files counters →
                        valid_date x.1).
  { intros x Hx. rewrite Forall_forall in Hvalid.
    assert (Hd : x.1 ∈ files.*2)
      by (rewrite <- (name_all_dates files counters); by apply list_elem_of_fmap_2).
    apply list_elem_of_fmap in Hd as (f & -> & Hf). by apply Hvalid. }
  destruct (name_all_keyed files counters) as [Hnd _].
  assert (Hinj : ∀ x y,
    x ∈ name_all lib config parent_name files counters →
    y ∈ name_all lib config parent_name files counters →
    parent_name +:+ "_" +:+ strftime_Ymd x.1 +:+ "_" +:+ PyStr.zfill 3 x.2
    = parent_name +:+ "_" +:+ strftime_Ymd y.1 +:+ "_" +:+ PyStr.zfill 3 y.2 →
    (strftime_Ymd x.1, x.2) = (strftime_Ymd y.1, y.2)).
  { intros x y Hx Hy H. apply fallback_inj in H as [-> ->]; [done|].
    rewrite !strftime_Ymd_length by (by apply Hdates). done. }
  revert Hnd Hinj. generalize (name_all lib config parent_name files counters).
  induction l as [|x l IH]; intros Hnd Hinj; [constructor|].
  cbn [fmap list_fmap] in *. apply NoDup_cons in Hnd as [Hx Hnd].
  constructor.
  - intros Hel. apply list_elem_of_fmap in Hel as (y & Hxy & Hy).
    apply Hx. apply Hinj in Hxy; [|by left|by right].
    rewrite Hxy. by apply (list_elem_of_fmap_2 (λ x, (strftime_Ymd x.1, x.2))).
  - apply IH; [done|]. intros y z Hy Hz. apply Hinj; by right.
Qed.

End RunNames.

(** X8.  When the template cannot be rendered (it raises, or gives the
    empty string, whatever the context), every file of a run gets the
    fallback name, folder, day-key and counter padded to three digits
    joined by underscores, the counter being one more than the entry the
    starting counters had for the day-key plus the number of files of that
    day-key before the file; and these names are pairwise distinct. *)
Theorem fallback_names_distinct (lib : Lib) (config : PhotoConfig) (parent_name : string)
    (files : list (Path * datetime)) (counters : gmap string nat) :
  Forall (λ f, valid_date f.2) files →
  (∀ ctx, str_format lib (rename_pattern config) ctx = Ok "" ∨
          ∃ e, str_format lib (rename_pattern config) ctx = Err e) →
  ∃ names : list string,
    build_all lib config parent_name files counters = Ok <$> names ∧
    length names = length files ∧
    NoDup names ∧
    ∀ i src dt,
      files !! i = Some (src, dt) →
      names !! i
      = Some (parent_name +:+ "_" +:+ strftime_Ymd dt +:+ "_"
              +:+ PyStr.zfill 3
                    (S (default 0 (counters !! strftime_Ymd dt)
                        + length (filter (λ f, strftime_Ymd f.2 = strftime_Ymd dt)
                                    (take i files))))).
Proof.
  intros Hvalid Hfails.
  exists ((λ x, parent_name +:+ "_" +:+ strftime_Ymd x.1 +:+ "_" +:+ PyStr.zfill 3 x.2)
            <$> name_all lib config parent_name files counters).
  assert (Hall : build_all lib config parent_name files counters
                 = Ok <$> ((λ x, parent_name +:+ "_" +:+ strftime_Ymd x.1 +:+ "_"
                                 +:+ PyStr.zfill 3 x.2)
                           <$> name_all lib config parent_name files counters)).
  { rewrite build_all_fallback by done. by rewrite <- list_fmap_compose. }
  split; [done|]. split; [|split].
  - rewrite length_fmap, <- (length_fmap fst), name_all_dates, length_fmap. done.
  - by apply fallback_names_NoDup.
  - intros i src dt Hi.
    pose proof (build_all_counter lib config parent_name files counters i src dt Hi)
      as Hname.
    rewrite Hall, list_lookup_fmap in Hname.
    destruct (((λ x, parent_name +:+ "_" +:+ strftime_Ymd x.1 +:+ "_"
                     +:+ PyStr.zfill 3 x.2)
               <$> name_all lib config parent_name files counters) !! i)
      as [name|]; [|done].
    injection Hname as ->. f_equal. unfold name_with_counter.
    by destruct (Hfails
                   {| ctx_folder := parent_name; ctx_date := strftime_Ymd dt;
                      ctx_counter :=
                        S (default 0 (counters !! strftime_Ymd dt)
                           + length (filter (λ f, strftime_Ymd f.2 = strftime_Ymd dt)
                                       (take i files)));
                      ctx_orig := path_stem lib src |}) as [->|[e ->]].
Qed.

Lemma fallback_names_distinct_witness :
  ∃ names : list string,
    build_all Demo.lib Demo.bad_config "in" Demo.files ∅ = Ok <$> names ∧
    length names = 3 ∧ NoDup names ∧
    names !! 2 = Some "in_20230115_002".
Proof.
  destruct (fallback_names_distinct Demo.lib Demo.bad_config "in" Demo.files ∅
              demo_files_valid
              (λ ctx, or_intror (ex_intro _ (Exception "album") eq_refl)))
    as (names & Hall & Hlen & Hnd & Hname).
  exists names. split; [exact Hall|]. split; [exact Hlen|]. split; [exact Hnd|].
  exact (Hname 2 "in/b.jpg" (Demo.at_day 15 18) eq_refl).
Defined.

(** * Discovery *)

(** X1.  Discovery keeps, in the order of the listing, exactly the entries
    that are regular files with a supported extension (compared in lower
    case); an error of the listing is an error of discovery. *)
Theorem gather_images_spec (lib : Lib) (fs : gset string) (config : PhotoConfig) :
  (∀ e, listing lib fs config = Err e → gather_images lib fs config = Err e) ∧
  (∀ entries, listing lib fs config = Ok entries →
     ∃ found,
       gather_images lib fs config = Ok found ∧
       found `sublist_of` entries ∧
       ∀ p, p ∈ found ↔ p ∈ entries ∧ supported_image lib p).
Proof.
  unfold gather_images, _iter_images, listing.
  destruct (recursive config).
  - destruct (rglob lib fs (source_dir config)) as [entries|e]; simpl.
    + split; [done|]. intros ? [= <-]. eexists. split; [done|].
      split; [apply sublist_filter|]. intros p. rewrite list_elem_of_filter.
      unfold supported_image. tauto.
    + split; [by intros ? [= <-]|done].
  - destruct (iterdir lib fs (source_dir config)) as [entries|e]; simpl.
    + split; [done|]. intros ? [= <-]. eexists. split; [done|].
      split; [apply sublist_filter|]. intros p. rewrite list_elem_of_filter.
      unfold supported_image. tauto.
    + split; [by intros ? [= <-]|done].
Qed.

Lemma gather_images_spec_witness :
  ∃ found,
    gather_images Demo.lib ∅ Demo.config = Ok found ∧
    found `sublist_of` ["in/a.jpg"; "in/notes.txt"; "in/broken.jpg"; "in/sub/c.PNG"] ∧
    ∀ p, p ∈ found ↔
         p ∈ ["in/a.jpg"; "in/notes.txt"; "in/broken.jpg"; "in/sub/c.PNG"] ∧
         supported_image Demo.lib p.
Proof.
  apply (proj2 (gather_images_spec Demo.lib ∅ Demo.config)). reflexivity.
Defined.

(** X2.  Without an explicit list, [process_images] lists the source
    directory after the destination directory has been created, and
    returns the number of entries of that listing that discovery keeps. *)
Theorem process_images_discovers (lib : Lib) (config : PhotoConfig)
    (progress_cb : bool) (fs fs1 : gset string) (entries : list Path) :
  mkdir lib fs (dest_dir config) = Ok fs1 →
  listing lib fs1 config = Ok entries →
  ∃ r : Report,
    process_images lib config None progress_cb fs = Returned r ∧
    process_images lib config
      (Some (filter (supported_image lib) entries)) progress_cb fs = Returned r ∧
    returned r = length (filter (supported_image lib) entries) ∧
    returned r ≤ length entries.
Proof.
  intros Hmkdir Hlist.
  assert (Hgather : gather_images lib fs1 config
                    = Ok (filter (supported_image lib) entries)).
  { unfold gather_images, _iter_images. unfold listing in Hlist.
    destruct (recursive config); by rewrite Hlist. }
  unfold process_images. rewrite Hmkdir, Hgather.
  set (found := filter (supported_image lib) entries).
  destruct (length found =? 0) eqn:Hzero.
  - apply Nat.eqb_eq in Hzero. eexists. split; [done|]. split; [done|].
    simpl. split; [done|]. lia.
  - destruct (process_loop_spec lib config (path_name lib (source_dir config))
                (PyStr.upper (output_format config)) (output_ext (output_format config))
                progress_cb (length found) found
                {| run_fs := fs1; run_stdout := []; run_progress := [];
                   run_counters := ∅; run_processed := 0 |})
      as (st' & -> & Hproc & _).
    eexists. split; [done|]. split; [done|]. simpl in *. split; [done|].
    rewrite Hproc. apply length_filter.
Qed.

Lemma process_images_discovers_witness :
  ∃ r : Report,
    process_images Demo.lib Demo.config None true ∅ = Returned r ∧ returned r = 3.
Proof.
  destruct (process_images_discovers Demo.lib Demo.config true ∅ ({["out"]} ∪ ∅)
              ["in/a.jpg"; "in/notes.txt"; "in/broken.jpg"; "in/sub/c.PNG"]
              eq_refl eq_refl) as (r & Hr & _ & Hcount & _).
  exists r. split; [exact Hr|]. rewrite Hcount. reflexivity.
Defined.

(** * What a run prints, and the counters it ends with *)

(** X6.  Every line a run prints is the error line of a file of the batch;
    the lines come in processing order, at most one per file. *)
Theorem printed_lines_name_files (lib : Lib) (config : PhotoConfig)
    (images_list : list Path) (progress_cb : bool) (fs : gset string) (r : Report) :
  process_images lib config (Some images_list) progress_cb fs = Returned r →
  ∃ errs : list (Path * exn),
    printed r = (λ x, error_line x.1 x.2) <$> errs ∧
    errs.*1 `sublist_of` images_list ∧
    length (printed r) ≤ returned r.
Proof.
  unfold process_images.
  destruct (mkdir lib fs (dest_dir config)) as [fs1|]; [|done].
  destruct (length images_list =? 0).
  - intros [= <-]. exists []. simpl. split; [done|]. split; [apply sublist_nil_l|lia].
  - destruct (process_loop_spec lib config (path_name lib (source_dir config))
                (PyStr.upper (output_format config)) (output_ext (output_format config))
                progress_cb (length images_list) images_list
                {| run_fs := fs1; run_stdout := []; run_progress := [];
                   run_counters := ∅; run_processed := 0 |})
      as (st' & Hloop & Hproc & _).
    rewrite Hloop. intros [= <-]. simpl.
    apply process_loop_printed in Hloop as (errs & Hout & Hsub).
    simpl in Hout, Hproc. exists errs. split; [done|]. split; [done|].
    rewrite Hout, Hproc, length_fmap, <- (length_fmap fst).
    by apply sublist_length.
Qed.

Lemma printed_lines_name_files_witness :
  ∃ (r : Report) (errs : list (Path * exn)),
    process_images Demo.lib Demo.config (Some ["in/zz.jpg"; "in/a.jpg"]) false ∅
      = Returned r ∧
    printed r = (λ x, error_line x.1 x.2) <$> errs ∧
    errs.*1 `sublist_of` ["in/zz.jpg"; "in/a.jpg"].
Proof.
  assert (Hrun : ∃ r, process_images Demo.lib Demo.config
                        (Some ["in/zz.jpg"; "in/a.jpg"]) false ∅ = Returned r)
    by (eexists; vm_compute; reflexivity).
  destruct Hrun as [r Hr].
  destruct (printed_lines_name_files Demo.lib Demo.config ["in/zz.jpg"; "in/a.jpg"] false ∅
              r Hr) as (errs & Hout & Hsub & _).
  exists r, errs. split; [exact Hr|]. split; [exact Hout|exact Hsub].
Defined.

(** X7.  When a run over a non-empty list returns, its counters hold, for
    each day-key, the number of files that reached the name builder with a
    date of that day, and no entry for a day without such a file. *)
Theorem final_counters_count_files (lib : Lib) (config : PhotoConfig)
    (images_list : list Path) (progress_cb : bool) (fs : gset string) (r : Report) :
  images_list ≠ [] →
  process_images lib config (Some images_list) progress_cb fs = Returned r →
  ∃ counters : gmap string nat,
    final_counters r = Some counters ∧
    ∀ k, counters !! k
         = (let n := length (filter (λ f, strftime_Ymd f.2 = k)
                               (named_files lib images_list)) in
            if n =? 0 then None else Some n).
Proof.
  intros Hne. unfold process_images.
  destruct (mkdir lib fs (dest_dir config)) as [fs1|]; [|done].
  destruct images_list as [|src l]; [done|].
  change (length (src :: l) =? 0) with false. cbv iota.
  destruct (process_loop lib config _ _ _ progress_cb _ (src :: l) _) as [st'|] eqn:Hloop;
    [|done].
  intros [= <-]. cbn [final_counters]. eexists. split; [done|]. intros k.
  apply process_loop_counters in Hloop. rewrite Hloop. cbn [run_counters].
  rewrite counters_after_lookup. cbv zeta. rewrite lookup_empty. cbn [default].
  by destruct (length _ =? 0).
Qed.

Lemma final_counters_count_files_witness :
  ∃ (r : Report) (counters : gmap string nat),
    process_images Demo.lib Demo.config
      (Some ["in/a.jpg"; "in/zz.jpg"; "in/b.jpg"; "in/d.jpg"]) false ∅ = Returned r ∧
    final_counters r = Some counters ∧
    counters !! "20230115" = Some 2 ∧ counters !! "20230117" = None.
Proof.
  assert (Hrun : ∃ r, process_images Demo.lib Demo.config
                        (Some ["in/a.jpg"; "in/zz.jpg"; "in/b.jpg"; "in/d.jpg"]) false ∅
                      = Returned r)
    by (eexists; vm_compute; reflexivity).
  destruct Hrun as [r Hr].
  destruct (final_counters_count_files Demo.lib Demo.config
              ["in/a.jpg"; "in/zz.jpg"; "in/b.jpg"; "in/d.jpg"] false ∅ r
              ltac:(discriminate) Hr) as (counters & Hc & Hk).
  exists r, counters. split; [exact Hr|]. split; [exact Hc|].
  split; rewrite Hk; reflexivity.
Defined.

(** * The shell *)

Section GuiFacts.

Context (lib : Lib) (sh : Shell).

Lemma or_else_nonempty (a b : string) : b ≠ "" → PyText.or_else a b ≠ "".
Proof. intros Hb. unfold PyText.or_else. by destruct a. Qed.

(** The ways out of [_build_config]: a configuration with no message box,
    or no configuration with one error box; the file system has changed
    only if the output directory was created. *)
Lemma build_config_cases (form : Form) (fs : gset string) :
  (∃ in_dir out_dir fs1 w h q,
     resolve sh (input_dir_var form) = Ok in_dir ∧
     in_dir ∈ fs ∧ is_dir sh in_dir = true ∧
     (if negb (PyStr.is_empty (PyText.strip (output_dir_var form)))
      then resolve sh (output_dir_var form)
      else resolve sh (joinpath in_dir "output")) = Ok out_dir ∧
     mkdir lib fs out_dir = Ok fs1 ∧
     max_w_var form = Ok w ∧ max_h_var form = Ok h ∧ quality_var form = Ok q ∧
     (0 < w)%Z ∧ (0 < h)%Z ∧ (1 ≤ q ≤ 100)%Z ∧
     _build_config lib sh form fs
     = (Some {| source_dir := in_dir; dest_dir := out_dir;
                max_width := w; max_height := h; quality := q;
                strip_metadata := strip_metadata_var form;
                recursive := recursive_var form;
                rename_pattern :=
                  PyText.or_else (PyText.strip (rename_pattern_var form)) DEFAULT_PATTERN;
                output_format :=
                  PyText.or_else (PyText.strip (output_format_var form)) "JPEG" |},
        [], fs1)) ∨
  (∃ msg fs1,
     _build_config lib sh form fs = (None, [ShowError "Erreur" msg], fs1) ∧
     (fs1 = fs ∨
      (∃ out_dir e, mkdir lib fs out_dir = Err e ∧ msg = exn_msg e ∧
                    fs1 = mkdir_leftover sh fs out_dir) ∨
      (∃ out_dir, mkdir lib fs out_dir = Ok fs1) ∧
      (msg = invalid_numbers ∨ msg = invalid_ranges))).
Proof.
  unfold _build_config.
  destruct (resolve sh (input_dir_var form)) as [in_dir|e] eqn:Hin;
    [|right; eexists _, _; split; [done|by left]].
  destruct (bool_decide (in_dir ∈ fs)) eqn:Hex; cbn [negb orb];
    [|right; eexists _, _; split; [done|by left]].
  destruct (is_dir sh in_dir) eqn:Hdir; cbn [negb];
    [|right; eexists _, _; split; [done|by left]].
  destruct (if negb (PyStr.is_empty (PyText.strip (output_dir_var form)))
            then resolve sh (output_dir_var form)
            else resolve sh (joinpath in_dir "output")) as [out_dir|e] eqn:Hout;
    [|right; eexists _, _; split; [done|by left]].
  destruct (mkdir lib fs out_dir) as [fs1|e] eqn:Hmk;
    [|right; eexists _, _; split; [done|right; left; by eexists _, _]].
  destruct (max_w_var form) as [w|] eqn:Hw; cbn [mbind res_bind];
    [|right; eexists _, _; split; [done|right; right; eauto]].
  destruct (max_h_var form) as [h|] eqn:Hh; cbn [mbind res_bind];
    [|right; eexists _, _; split; [done|right; right; eauto]].
  destruct (quality_var form) as [q|] eqn:Hq; cbn [mbind res_bind];
    [|right; eexists _, _; split; [done|right; right; eauto]].
  destruct ((w <=? 0)%Z || (h <=? 0)%Z || negb ((1 <=? q)%Z && (q <=? 100)%Z)) eqn:Hr;
    [right; eexists _, _; split; [done|right; right; eauto]|].
  left. apply orb_false_iff in Hr as [Hr Hq']. apply orb_false_iff in Hr as [Hw' Hh'].
  apply negb_false_iff, andb_true_iff in Hq' as [Hq1 Hq2].
  exists in_dir, out_dir, fs1, w, h, q.
  apply bool_decide_eq_true in Hex. repeat split; try done; lia.
Qed.

(** A run of the core on a list that is not empty, with a sink. *)
Lemma process_images_on_list (config : PhotoConfig) (imgs : list Path) (fs : gset string) :
  imgs ≠ [] →
  (∃ e, mkdir lib fs (dest_dir config) = Err e ∧
        process_images lib config (Some imgs) true fs = Raised e) ∨
  (∃ r, process_images lib config (Some imgs) true fs = Returned r ∧
        returned r = length imgs ∧
        progress_calls r = (λ i, (i, length imgs)) <$> seq 1 (length imgs)).
Proof.
  intros Hne. unfold process_images.
  destruct (mkdir lib fs (dest_dir config)) as [fs1|e]; [right|left; by eexists].
  destruct imgs as [|src l]; [done|].
  change (length (src :: l) =? 0) with false. cbv iota.
  destruct (process_loop_spec lib config (path_name lib (source_dir config))
              (PyStr.upper (output_format config)) (output_ext (output_format config))
              true (length (src :: l)) (src :: l)
              {| run_fs := fs1; run_stdout := []; run_progress := [];
                 run_counters := ∅; run_processed := 0 |})
    as (st' & -> & Hproc & Hprog).
  eexists. split; [done|]. simpl in *. by rewrite Hprog.
Qed.

End GuiFacts.

(** X14.  A configuration that [_build_config] returns is valid, and no
    message box was shown: the source directory is the resolved input, it
    exists and is a directory; the destination directory has been created;
    width and height are positive and the quality is between 1 and 100;
    the pattern and the format are the stripped fields, or the default
    pattern and "JPEG" when those are blank, and so are never empty. *)
Theorem build_config_valid (lib : Lib) (sh : Shell) (form : Form) (fs fs1 : gset string)
    (cfg : PhotoConfig) (events : list ui_event) :
  _build_config lib sh form fs = (Some cfg, events, fs1) →
  events = [] ∧
  resolve sh (input_dir_var form) = Ok (source_dir cfg) ∧
  source_dir cfg ∈ fs ∧ is_dir sh (source_dir cfg) = true ∧
  mkdir lib fs (dest_dir cfg) = Ok fs1 ∧
  (0 < max_width cfg)%Z ∧ (0 < max_height cfg)%Z ∧ (1 ≤ quality cfg ≤ 100)%Z ∧
  rename_pattern cfg ≠ "" ∧ output_format cfg ≠ "" ∧
  (PyText.strip (rename_pattern_var form) = "" → rename_pattern cfg = DEFAULT_PATTERN) ∧
  (PyText.strip (rename_pattern_var form) ≠ "" →
     rename_pattern cfg = PyText.strip (rename_pattern_var form)) ∧
  (PyText.strip (output_format_var form) = "" → output_format cfg = "JPEG") ∧
  (PyText.strip (output_format_var form) ≠ "" →
     output_format cfg = PyText.strip (output_format_var form)).
Proof.
  intros Hb.
  destruct (build_config_cases lib sh form fs)
    as [(in_dir & out_dir & fs' & w & h & q & Hin & Hex & Hdir & _ & Hmk & _ & _ & _
         & Hw & Hh & Hq & Heq)|(msg & fs' & Heq & _)];
    rewrite Heq in Hb; [|done].
  injection Hb as <- <- <-. cbn [source_dir dest_dir max_width max_height quality
                                 rename_pattern output_format].
  repeat split; try done; try lia.
  - by apply or_else_nonempty.
  - by apply or_else_nonempty.
  - by intros ->.
  - intros Hne. unfold PyText.or_else. by destruct (PyText.strip (rename_pattern_var form)).
  - by intros ->.
  - intros Hne. unfold PyText.or_else. by destruct (PyText.strip (output_format_var form)).
Qed.

Lemma build_config_valid_witness :
  ∃ cfg : PhotoConfig,
    _build_config Demo.lib demo_shell demo_form {["in"]}
      = (Some cfg, [], {["in/output"]} ∪ {["in"]}) ∧
    rename_pattern cfg = DEFAULT_PATTERN ∧
    (1 ≤ quality cfg ≤ 100)%Z ∧
    mkdir Demo.lib {["in"]} (dest_dir cfg) = Ok ({["in/output"]} ∪ {["in"]}).
Proof.
  assert (Hrun : ∃ cfg, _build_config Demo.lib demo_shell demo_form {["in"]}
                        = (Some cfg, [], {["in/output"]} ∪ {["in"]}))
    by (eexists; vm_compute; reflexivity).
  destruct Hrun as [cfg Hcfg]. exists cfg. split; [exact Hcfg|].
  destruct (build_config_valid Demo.lib demo_shell demo_form _ _ cfg [] Hcfg)
    as (_ & _ & _ & _ & Hmk & _ & _ & Hq & _ & _ & Hpat & _).
  split; [apply Hpat; reflexivity|]. split; [exact Hq|exact Hmk].
Defined.



(** X16.  When the form is accepted, discovery finds N > 0 images and the
    destination directory is still there, the run button gives: the
    progress bar set to 0 of N, then one update per file, 1 of N to N of N
    in order, then one box reporting N images and the destination. *)
Theorem on_run_reports_progress (lib : Lib) (sh : Shell) (form : Form)
    (fs fs1 fs2 : gset string) (cfg : PhotoConfig) (events : list ui_event)
    (imgs : list Path) :
  _build_config lib sh form fs = (Some cfg, events, fs1) →
  gather_images lib fs1 cfg = Ok imgs →
  imgs ≠ [] →
  mkdir lib fs1 (dest_dir cfg) = Ok fs2 →
  ∃ fs' : gset string,
    on_run lib sh form fs
    = Returned
        ([ProgressBar 0 (length imgs) (progress_label 0 (length imgs))]
         ++ ((λ i, ProgressBar i (length imgs) (progress_label i (length imgs)))
               <$> seq 1 (length imgs))
         ++ [ShowInfo "Terminé" (done_message (length imgs) (dest_dir cfg))],
         fs').
Proof.
  intros Hb Hg Hne Hmk.
  assert (Hev : events = []).
  { destruct (build_config_cases lib sh form fs)
      as [(? & ? & ? & ? & ? & ? & _ & _ & _ & _ & _ & _ & _ & _ & _ & _ & _ & Heq)
         |(msg & fs' & Heq & _)]; rewrite Heq in Hb; [by injection Hb|done]. }
  subst events. unfold on_run. rewrite Hb, Hg.
  destruct imgs as [|src l] eqn:Himgs; [done|]. rewrite <- Himgs in *.
  destruct (process_images_on_list lib cfg imgs fs1 Hne)
    as [(e & Hmk' & _)|(r & -> & Hret & Hcalls)]; [congruence|].
  exists (final_fs r). rewrite Hret, Hcalls, <- list_fmap_compose.
  rewrite Himgs. reflexivity.
Qed.



Lemma on_run_reports_progress_witness :
  ∃ fs' : gset string,
    on_run Demo.lib demo_shell demo_form {["in"]}
    = Returned
        ([ProgressBar 0 3 "0 / 3"; ProgressBar 1 3 "1 / 3"; ProgressBar 2 3 "2 / 3";
          ProgressBar 3 3 "3 / 3"; ShowInfo "Terminé" (done_message 3 "in/output")],
         fs').
Proof.
  apply (on_run_reports_progress Demo.lib demo_shell demo_form
           {["in"]} ({["in/output"]} ∪ {["in"]})
           ({["in/output"]} ∪ ({["in/output"]} ∪ {["in"]}))
           {| source_dir := "in"; dest_dir := "in/output"; max_width := 800;
              max_height := 600; quality := 70; strip_metadata := false;
              recursive := true; rename_pattern := DEFAULT_PATTERN;
              output_format := "JPEG" |}
           [] ["in/a.jpg"; "in/broken.jpg"; "in/sub/c.PNG"]).
  - vm_compute. reflexivity.
  - vm_compute. reflexivity.
  - discriminate.
  - vm_compute. reflexivity.
Defined.
